(** * Training-loop orchestration of train.py: a shallow embedding

    The driver script train.py is embedded function by function.  Python
    integers are [Z] ([//] is [Z.div], [%] is [Z.modulo], both rounding
    towards minus infinity like Python's), sequences are lists, [len] is
    [py_len], the vocabulary and the output files are finite maps.
    Floating-point losses are idealised as real numbers, BLEU scores as
    rationals.  Collaborators that live outside train.py (the network, the
    optimiser, the scorer, the batching iterator) are Section variables. *)

From Stdlib Require Import ZArith List String Ascii Bool Lia QArith Reals Lra.
From stdpp Require Import base list gmap strings sorting.

Open Scope Z_scope.

(** ** Python primitives *)

Definition py_len {A : Type} (l : list A) : Z := Z.of_nat (length l).

(** ** Python errors *)

Inductive PyError : Type :=
  | ZeroDivisionError
  | ValueError
  | KeyError
  | IndexError
  | FileNotFoundError.

Inductive result (A : Type) : Type :=
  | Ok (a : A)
  | Raise (e : PyError).

Arguments Ok {A} a.
Arguments Raise {A} e.

(** [a % b]: the remainder has the sign of the divisor, and a zero divisor
    raises. *)
Definition py_mod (a b : Z) : result Z :=
  if b =? 0 then Raise ZeroDivisionError else Ok (a mod b).

(** [range(0, stop, step)] for [stop >= 0]: a zero step raises, a negative
    step gives the empty range. *)
Definition py_range0 (stop step : Z) : result (list Z) :=
  if step =? 0 then Raise ValueError
  else if step <? 0 then Ok []
  else Ok ((fun j => Z.of_nat j * step) <$>
             seq 0 (Z.to_nat ((stop + step - 1) / step))).

(** [l[i:j]] for [0 <= i <= j]. *)
Definition py_slice {A : Type} (l : list A) (i j : Z) : list A :=
  take (Z.to_nat (j - i)) (drop (Z.to_nat i) l).

(** [sub in s] on strings: substring containment. *)
Fixpoint py_in_str (sub s : string) : bool :=
  String.prefix sub s ||
  match s with
  | EmptyString => false
  | String _ s' => py_in_str sub s'
  end.

(** Truth value of a string used as a condition: non-empty. *)
Definition py_truthy_str (s : string) : bool :=
  negb (String.eqb s EmptyString).

Definition newline : string := String (ascii_of_nat 10) EmptyString.
Definition space : string := String (ascii_of_nat 32) EmptyString.

(** ** Token-budgeted batching *)

Module Batching.

(** An example is a pair (source ids, target ids). *)
Definition Example : Type := list Z * list Z.
Definition Batch : Type := list Example.

(** train.py, [batch_size_func(new, count, sofar)]. *)
Definition batch_size_func (new : Example) (count : Z) (sofar : Z) : Z :=
  sofar + py_len new.1 + py_len new.2.

(** The cost of a batch in the words of the specification: the sum, over the
    examples of the batch, of source length plus target length. *)
Definition example_cost (ex : Example) : Z := py_len ex.1 + py_len ex.2.

Definition batch_cost (b : Batch) : Z :=
  foldr (fun ex acc => example_cost ex + acc) 0 b.

(** The accumulator as the sampler threads it through [batch_size_fn]:
    example number [count] is appended and the running size is updated. *)
Fixpoint accumulate (fn : Example -> Z -> Z -> Z) (count sofar : Z) (b : Batch) : Z :=
  match b with
  | [] => sofar
  | ex :: rest => accumulate fn (count + 1) (fn ex (count + 1) sofar) rest
  end.

Section Sampler.

Variable batch_size_fn : Example -> Z -> Z -> Z.

(** Modelled from the spec: the batching loop behind [data.iterator.pool]
    belongs to the iterator library and is not part of train.py.  Section
    4.1: the policy appends an example and only then checks the bound, so
    the example appended last may push the sum over the budget; an empty
    corpus gives an empty sequence. *)
Fixpoint batch_from (batch_size : Z) (minibatch : Batch) (size_so_far : Z)
    (data : list Example) : list Batch :=
  match data with
  | [] => match minibatch with [] => [] | _ :: _ => [minibatch] end
  | ex :: rest =>
      let minibatch' := minibatch ++ [ex] in
      let size' := batch_size_fn ex (py_len minibatch') size_so_far in
      if batch_size <=? size'
      then minibatch' :: batch_from batch_size [] 0 rest
      else batch_from batch_size minibatch' size' rest
  end.

Definition batch (data : list Example) (batch_size : Z) : list Batch :=
  batch_from batch_size [] 0 data.

Variable interleave_keys : Z -> Z -> Z.
Variable random_shuffler : list Batch -> list Batch.

(** train.py, the [key] lambda handed to the pool. *)
Definition key (x : Example) : Z := interleave_keys (py_len x.1) (py_len x.2).

Definition sorted (p : list Example) : list Example :=
  @merge_sort _ (fun x y => key x <= key y)
    (fun x y => decide (key x <= key y)) p.

(** Modelled from the spec: [data.iterator.pool] (iterator library).
    Section 4.1: examples are grouped into sort-pools, each pool is sorted
    by the interleaved length key and sliced into budget-bounded batches,
    and the batches of a pool come out in a randomised order. *)
Definition pool (data : list Example) (batch_size : Z) : list Batch :=
  flat_map (fun p => random_shuffler (batch (sorted p) batch_size))
           (batch data (batch_size * 100)).

End Sampler.

(** The training iterator of train.py, lines 142-145. *)
Definition train_iter (interleave_keys : Z -> Z -> Z)
    (random_shuffler : list Batch -> list Batch)
    (train_data : list Example) (wbatchsize : Z) : list Batch :=
  pool batch_size_func interleave_keys random_shuffler train_data wbatchsize.

End Batching.

(** ** Running statistics *)

Module Stats.

#[local] Open Scope R_scope.

(** Modelled from the spec: the record of [utils.Statistics] (utils.py is
    not part of the sources).  Section 3: a mutable aggregate
    {loss_sum, n_correct, n_src_words, n_words, n_batches}. *)
Record Statistics : Type := mkStatistics {
  loss_sum : R;
  n_correct : Z;
  n_src_words : Z;
  n_words : Z;
  n_batches : Z
}.

(** Modelled from the spec: [utils.Statistics()], a fresh aggregate. *)
Definition fresh : Statistics := mkStatistics 0 0 0 0 0.

(** Modelled from the spec: [Statistics.update], the merge of section 4.4,
    pure aggregation of the scalar signals. *)
Definition update (s stat : Statistics) : Statistics :=
  mkStatistics (loss_sum s + loss_sum stat)
               (n_correct s + n_correct stat)%Z
               (n_src_words s + n_src_words stat)%Z
               (n_words s + n_words stat)%Z
               (n_batches s + n_batches stat)%Z.

(** train.py lines 158-159: [stats.n_src_words += src_words]. *)
Definition add_src_words (s : Statistics) (src_words : Z) : Statistics :=
  mkStatistics (loss_sum s) (n_correct s) (n_src_words s + src_words)%Z
               (n_words s) (n_batches s).

(** Modelled from the spec: [Statistics.ppl], exp(loss_sum / n_words),
    undefined on an aggregate without words. *)
Definition ppl (s : Statistics) : option R :=
  if (n_words s =? 0)%Z then None else Some (exp (loss_sum s / IZR (n_words s))).

(** Modelled from the spec: [Statistics.accuracy], n_correct / n_words,
    undefined on an aggregate without words. *)
Definition accuracy (s : Statistics) : option R :=
  if (n_words s =? 0)%Z then None else Some (IZR (n_correct s) / IZR (n_words s)).

(** The progress line printed by [Statistics.output]. *)
Record ProgressLine : Type := mkProgressLine {
  pl_epoch : Z;
  pl_batch : Z;
  pl_num_batches : Z;
  pl_start_time : R;
  pl_grad_norm : R;
  pl_stats : Statistics
}.

(** train.py, [report_func]: the statistics to go on with, and the lines
    printed. *)
Definition report_func (epoch batch num_batches : Z) (start_time : R)
    (report_stats : Statistics) (report_every : Z) (grad_norm : R)
    : result (Statistics * list ProgressLine) :=
  match py_mod batch report_every, py_mod (-1) report_every with
  | Ok lhs, Ok rhs =>
      if (lhs =? rhs)%Z
      then Ok (fresh,
               [mkProgressLine epoch (batch + 1) num_batches start_time
                               grad_norm report_stats])
      else Ok (report_stats, [])
  | Raise e, _ => Raise e
  | _, Raise e => Raise e
  end.

End Stats.

(** ** Output writer *)

Module Output.

(** [vocab[y] for y in sent]: a missing id raises. *)
Fixpoint lookup_words (vocab : gmap Z string) (sent : list Z) : result (list string) :=
  match sent with
  | [] => Ok []
  | y :: rest =>
      match vocab !! y with
      | None => Raise KeyError
      | Some w =>
          match lookup_words vocab rest with
          | Ok ws => Ok (w :: ws)
          | Raise e => Raise e
          end
      end
  end.

(** The body of the [for sent in hypotheses] loop, on the text written to
    the open file so far. *)
Fixpoint write_lines (vocab : gmap Z string) (hypotheses : list (list Z))
    (written : string) : string * result unit :=
  match hypotheses with
  | [] => (written, Ok tt)
  | sent :: rest =>
      match lookup_words vocab sent with
      | Raise e => (written, Raise e)
      | Ok words =>
          write_lines vocab rest (written +:+ (String.concat space words +:+ newline))
      end
  end.

(** A line of the output in the words of the specification: the tokens of
    the sentence, looked up in the vocabulary and joined by single spaces. *)
Definition rendered_line (vocab : gmap Z string) (sent : list Z) : string :=
  String.concat space (map (fun y => default EmptyString (vocab !! y)) sent) +:+ newline.

(** train.py, [save_output]: the file is opened for writing (truncated),
    one write per sentence; the file system maps paths to contents. *)
Definition save_output (hypotheses : list (list Z)) (vocab : gmap Z string)
    (outf : string) (fs : gmap string string) : gmap string string * result unit :=
  let '(written, r) := write_lines vocab hypotheses EmptyString in
  (<[outf := written]> fs, r).

End Output.

(** ** Parameter tally *)

Module Tally.

(** The branch conditions of the loop of [tally_parameters].  The second
    is [('decoder') or ('generator' in name)]: the truth value of its left
    operand decides it. *)
Definition is_encoder (name : string) : bool := py_in_str "encoder" name.

Definition is_decoder (name : string) : bool :=
  py_truthy_str "decoder" || py_in_str "generator" name.

(** The loop over [model.named_parameters()], on (enc, dec). *)
Fixpoint tally_loop (named_parameters : list (string * Z)) (enc dec : Z) : Z * Z :=
  match named_parameters with
  | [] => (enc, dec)
  | (name, nelement) :: rest =>
      if is_encoder name then tally_loop rest (enc + nelement) dec
      else if is_decoder name then tally_loop rest enc (dec + nelement)
      else tally_loop rest enc dec
  end.

(** [sum([p.nelement() for p in ...])]. *)
Definition total_elements (parameters : list (string * Z)) : Z :=
  foldr Z.add 0 (map snd parameters).

(** train.py, [tally_parameters]: the three numbers printed. *)
Definition tally_parameters (named_parameters : list (string * Z)) : Z * Z * Z :=
  let n_params := total_elements named_parameters in
  let '(enc, dec) := tally_loop named_parameters 0 0 in
  (n_params, enc, dec).

End Tally.

(** ** Corpus scoring by generation *)

Module Evaluator.

Import Batching.

(** The [beam] argument of [model.translate]: [False], or a width. *)
Inductive BeamArg : Type :=
  | BeamFalse
  | BeamWidth (k : Z).

(** One call of [model.translate(sources, max_length, beam=...)]. *)
Record GenCall : Type := mkGenCall {
  gc_sources : list (list Z);
  gc_max_length : Z;
  gc_beam : BeamArg
}.

(** The generation mode in the words of the specification: beam search
    if the width is greater than 1, greedy decoding otherwise. *)
Definition generation_mode (k : Z) : BeamArg :=
  if decide (1 < k) then BeamWidth k else BeamFalse.

(** A corpus cut into consecutive batches of a fixed size, in corpus
    order, in the words of the specification; [fuel] bounds the number of
    batches. *)
Fixpoint consecutive_batches {A : Type} (fuel size : nat) (l : list A) : list (list A) :=
  match fuel with
  | O => []
  | S fuel' =>
      match l with
      | [] => []
      | _ :: _ => take size l :: consecutive_batches fuel' size (drop size l)
      end
  end.

Section CalculateBleu.

Variable Model : Type.
(** [net.Transformer.translate], the generation interface of the model. *)
Variable translate : Model -> list (list Z) -> Z -> BeamArg -> list (list Z).
(** [evaluator.BLEUEvaluator().evaluate(references, hypotheses).bleu]. *)
Variable bleu_evaluate : list (list Z) -> list (list Z) -> Q.

Record CalculateBleu : Type := mkCalculateBleu {
  model : Model;
  test_data : list Example;
  key : string;
  batch : Z;
  device : Z;
  max_length : Z;
  beam_size : Z
}.

(** [CalculateBleu(model, test_data, key, batch=..., beam_size=...)] as
    train.py calls it: [max_length] keeps its default, 50. *)
Definition new (model : Model) (test_data : list Example) (key : string)
    (batch beam_size : Z) : CalculateBleu :=
  mkCalculateBleu model test_data key batch (-1) 50 beam_size.

(** The generation step of one batch, lines 87-90, with the call made. *)
Definition generate (self : CalculateBleu) (sources : list (list Z))
    : list (list Z) * GenCall :=
  if 1 <? beam_size self
  then (translate (model self) sources (max_length self) (BeamWidth (beam_size self)),
        mkGenCall sources (max_length self) (BeamWidth (beam_size self)))
  else (translate (model self) sources (max_length self) BeamFalse,
        mkGenCall sources (max_length self) BeamFalse).

(** The body of [for i in range(0, len(self.test_data), self.batch)], on
    (references, hypotheses, calls made). *)
Fixpoint call_loop (self : CalculateBleu) (indices : list Z)
    (references hypotheses : list (list Z)) (calls : list GenCall)
    : list (list Z) * list (list Z) * list GenCall :=
  match indices with
  | [] => (references, hypotheses, calls)
  | i :: rest =>
      let chunk := py_slice (test_data self) i (i + batch self) in
      let sources := chunk.*1 in
      let targets := chunk.*2 in
      let '(ys, c) := generate self sources in
      call_loop self rest (references ++ targets) (hypotheses ++ ys) (calls ++ [c])
  end.

(** [CalculateBleu.__call__]: the calls made to the model, and the pair
    (score, hypotheses) returned. *)
Definition call (self : CalculateBleu)
    : list GenCall * result (Q * list (list Z)) :=
  match py_range0 (py_len (test_data self)) (batch self) with
  | Raise e => ([], Raise e)
  | Ok indices =>
      let '(references, hypotheses, calls) := call_loop self indices [] [] [] in
      (calls, Ok (bleu_evaluate references hypotheses, hypotheses))
  end.

End CalculateBleu.

Arguments model {Model} _.
Arguments test_data {Model} _.
Arguments key {Model} _.
Arguments batch {Model} _.
Arguments device {Model} _.
Arguments max_length {Model} _.
Arguments beam_size {Model} _.

End Evaluator.

(** ** The training run *)

Module Train.

Import Batching Stats.

(** The part of the configuration that train.py's control flow reads. *)
Record Args : Type := mkArgs {
  epoch : Z;
  wbatchsize : Z;
  batchsize : Z;
  beam_size : Z;
  report_every : Z;
  no_bleu : bool;
  dev_hyp : string;
  test_hyp : string
}.

(** What a run does that can be observed from outside. *)
Inductive Event : Type :=
  | EvTally (counts : Z * Z * Z)
  | EvProgress (line : ProgressLine)
  | EvBleu (key : string) (batch : Z) (calls : list Evaluator.GenCall)
  | EvTorchSave
  | EvTorchLoad
  | EvEpochSummary (train_ppl train_acc valid_ppl valid_acc : option R)
  | EvSaveOutput (outf : string).

(** The guard of line 174, [total_steps + 1 % 1000 == 0].  In Python as
    here [%] binds tighter than [+]: the remainder is taken of 1 alone. *)
Definition cadence_due (total_steps : Z) : bool :=
  total_steps + 1 mod 1000 =? 0.

(** The number of words on one side of the examples, lines 133-134 and
    157: the data are transposed by [zip] and the result is indexed, which
    raises when there are no examples. *)
Definition words_of (proj : Example -> list Z) (data : list Example) : result Z :=
  match data with
  | [] => Raise IndexError
  | _ :: _ => Ok (py_len (concat (map proj data)))
  end.

(** [a // b]. *)
Definition py_floordiv (a b : Z) : result Z :=
  if b =? 0 then Raise ZeroDivisionError else Ok (a / b).

Section Main.

Variable Model : Type.
Variable translate : Model -> list (list Z) -> Z -> Evaluator.BeamArg -> list (list Z).
Variable bleu_evaluate : list (list Z) -> list (list Z) -> Q.
Variable named_parameters : Model -> list (string * Z).
(** Forward pass, backward pass, gradient norm and optimiser step of one
    batch: the updated model, the statistics of the batch, the norm. *)
Variable train_step : Model -> Batch -> Model * Statistics * R.
(** Forward pass in evaluation mode. *)
Variable eval_batch : Model -> Batch -> Statistics.
(** [random.shuffle] at the start of the given epoch. *)
Variable shuffle : Z -> list Example -> list Example.
Variable interleave_keys : Z -> Z -> Z.
Variable random_shuffler : list Batch -> list Batch.
Variable time_s : R.

Variable args : Args.
Variable dev_data test_data : list Example.
Variable id2w : gmap Z string.

(** The variables of [main] that change during the run, the model file
    and the output files on disk, and the events so far. *)
Record RunState : Type := mkRunState {
  model : Model;
  train_data : list Example;
  total_steps : Z;
  best_score : Q;
  report_stats : Statistics;
  train_stats : Statistics;
  valid_stats : Statistics;
  grad_norm : R;
  model_file : option Model;
  files : gmap string string;
  log : list Event
}.

Definition set_model (v : Model) (s : RunState) : RunState :=
  mkRunState v (train_data s) (total_steps s) (best_score s) (report_stats s)
    (train_stats s) (valid_stats s) (grad_norm s) (model_file s) (files s) (log s).
Definition set_train_data (v : list Example) (s : RunState) : RunState :=
  mkRunState (model s) v (total_steps s) (best_score s) (report_stats s)
    (train_stats s) (valid_stats s) (grad_norm s) (model_file s) (files s) (log s).
Definition set_total_steps (v : Z) (s : RunState) : RunState :=
  mkRunState (model s) (train_data s) v (best_score s) (report_stats s)
    (train_stats s) (valid_stats s) (grad_norm s) (model_file s) (files s) (log s).
Definition set_best_score (v : Q) (s : RunState) : RunState :=
  mkRunState (model s) (train_data s) (total_steps s) v (report_stats s)
    (train_stats s) (valid_stats s) (grad_norm s) (model_file s) (files s) (log s).
Definition set_report_stats (v : Statistics) (s : RunState) : RunState :=
  mkRunState (model s) (train_data s) (total_steps s) (best_score s) v
    (train_stats s) (valid_stats s) (grad_norm s) (model_file s) (files s) (log s).
Definition set_train_stats (v : Statistics) (s : RunState) : RunState :=
  mkRunState (model s) (train_data s) (total_steps s) (best_score s) (report_stats s)
    v (valid_stats s) (grad_norm s) (model_file s) (files s) (log s).
Definition set_valid_stats (v : Statistics) (s : RunState) : RunState :=
  mkRunState (model s) (train_data s) (total_steps s) (best_score s) (report_stats s)
    (train_stats s) v (grad_norm s) (model_file s) (files s) (log s).
Definition set_grad_norm (v : R) (s : RunState) : RunState :=
  mkRunState (model s) (train_data s) (total_steps s) (best_score s) (report_stats s)
    (train_stats s) (valid_stats s) v (model_file s) (files s) (log s).
Definition set_model_file (v : option Model) (s : RunState) : RunState :=
  mkRunState (model s) (train_data s) (total_steps s) (best_score s) (report_stats s)
    (train_stats s) (valid_stats s) (grad_norm s) v (files s) (log s).
Definition set_files (v : gmap string string) (s : RunState) : RunState :=
  mkRunState (model s) (train_data s) (total_steps s) (best_score s) (report_stats s)
    (train_stats s) (valid_stats s) (grad_norm s) (model_file s) v (log s).
Definition set_log (v : list Event) (s : RunState) : RunState :=
  mkRunState (model s) (train_data s) (total_steps s) (best_score s) (report_stats s)
    (train_stats s) (valid_stats s) (grad_norm s) (model_file s) (files s) v.

(** State and exceptions: a raised error keeps the state reached. *)
Definition M (A : Type) : Type := RunState -> RunState * result A.

#[local] Instance M_ret : MRet M := fun A a s => (s, Ok a).
#[local] Instance M_bind : MBind M := fun A B f m s =>
  match m s with
  | (s', Ok a) => f a s'
  | (s', Raise e) => (s', Raise e)
  end.

Definition get : M RunState := fun s => (s, Ok s).
Definition modify (f : RunState -> RunState) : M unit := fun s => (f s, Ok tt).
Definition lift {A : Type} (r : result A) : M A := fun s => (s, r).
Definition emit (e : Event) : M unit := modify (fun s => set_log (log s ++ [e]) s).

Fixpoint for_each {A : Type} (body : A -> M unit) (l : list A) : M unit :=
  match l with
  | [] => mret tt
  | x :: rest => body x;; for_each body rest
  end.

(** [torch.save(model, args.model_file)] and [torch.load(args.model_file)]. *)
Definition torch_save : M unit :=
  modify (fun s => set_model_file (Some (model s)) s);; emit EvTorchSave.

Definition torch_load : M Model :=
  s ← get;
  match model_file s with
  | None => lift (Raise FileNotFoundError)
  | Some m => emit EvTorchLoad;; mret m
  end.

(** [CalculateBleu(model, data, key, batch=..., beam_size=...)()]. *)
Definition calculate_bleu (data : list Example) (key : string) (batch : Z)
    : M (Q * list (list Z)) :=
  s ← get;
  let '(calls, r) :=
    Evaluator.call Model translate bleu_evaluate
      (Evaluator.new Model (model s) data key batch (beam_size args)) in
  emit (EvBleu key batch calls);;
  lift r.

(** Lines 180-182: the checkpoint decision on a score. *)
Definition maybe_checkpoint (score : Q) : M unit :=
  s ← get;
  if Qle_bool (best_score s) score
  then modify (set_best_score score);; torch_save
  else mret tt.

(** Lines 174-182: the periodic evaluation block. *)
Definition evaluation_block : M unit :=
  s ← get;
  if cadence_due (total_steps s) then
    if negb (no_bleu args) then
      '(score, _) ← calculate_bleu dev_data "Dev Bleu" (batchsize args / 4);
      maybe_checkpoint score
    else mret tt
  else mret tt.

(** Lines 169-172: merge the statistics of the step and report. *)
Definition report_block (epoch num_steps iter_per_epoch : Z) (stat : Statistics) : M unit :=
  modify (fun s => set_report_stats (update (report_stats s) stat) s);;
  modify (fun s => set_train_stats (update (train_stats s) stat) s);;
  s ← get;
  '(stats, lines) ← lift (report_func epoch num_steps iter_per_epoch time_s
                            (report_stats s) (report_every args)
                            (grad_norm s / IZR (num_steps + 1)));
  modify (set_report_stats stats);;
  for_each (fun line => emit (EvProgress line)) lines.

(** Lines 152-182: one iteration of the step loop. *)
Definition step (epoch iter_per_epoch : Z) (it : Z * Batch) : M unit :=
  let '(num_steps, train_batch) := it in
  modify (fun s => set_total_steps (total_steps s + 1) s);;
  src_words ← lift (words_of fst train_batch);
  modify (fun s => set_report_stats (add_src_words (report_stats s) src_words) s);;
  modify (fun s => set_train_stats (add_src_words (train_stats s) src_words) s);;
  s ← get;
  let '(model', stat, norm) := train_step (model s) train_batch in
  modify (set_model model');;
  modify (fun s => set_grad_norm (grad_norm s + norm)%R s);;
  report_block epoch num_steps iter_per_epoch stat;;
  evaluation_block.

(** Lines 185-199: the validation pass and the summary of the epoch. *)
Definition validation_pass : M unit :=
  let dev_iter := pool (fun _ count _ => count) interleave_keys random_shuffler
                       dev_data (batchsize args / 4) in
  for_each (fun dev_batch =>
              modify (fun s => set_valid_stats
                                 (update (valid_stats s) (eval_batch (model s) dev_batch)) s))
           dev_iter;;
  s ← get;
  emit (EvEpochSummary (ppl (train_stats s)) (accuracy (train_stats s))
                       (ppl (valid_stats s)) (accuracy (valid_stats s))).

(** Lines 141-199: one epoch. *)
Definition run_epoch (iter_per_epoch : Z) (epoch : Z) : M unit :=
  modify (fun s => set_train_data (shuffle epoch (train_data s)) s);;
  s ← get;
  let batches := train_iter interleave_keys random_shuffler (train_data s)
                            (wbatchsize args) in
  modify (set_report_stats fresh);;
  modify (set_train_stats fresh);;
  modify (set_valid_stats fresh);;
  modify (set_grad_norm 0%R);;
  for_each (step epoch iter_per_epoch) (imap (fun i b => (Z.of_nat i, b)) batches);;
  validation_pass.

(** Lines 140-199: [for epoch in range(args.epoch)]. *)
Definition run_epochs (iter_per_epoch : Z) : M unit :=
  for_each (run_epoch iter_per_epoch)
           (map Z.of_nat (seq 0 (Z.to_nat (epoch args)))).

Definition save_output_m (hypotheses : list (list Z)) (outf : string) : M unit :=
  emit (EvSaveOutput outf);;
  s ← get;
  let '(fs, r) := Output.save_output hypotheses id2w outf (files s) in
  modify (set_files fs);;
  lift r.

(** Lines 201-209: reload the saved model, score and write out. *)
Definition final_scoring : M unit :=
  m ← torch_load;
  modify (set_model m);;
  '(_, dev_hyps) ← calculate_bleu dev_data "Dev Bleu" (batchsize args / 4);
  save_output_m dev_hyps (dev_hyp args);;
  '(_, test_hyps) ← calculate_bleu test_data "Test Bleu" (batchsize args / 4);
  save_output_m test_hyps (test_hyp args).

(** The start of [main]: [best_score = 0], the tally, the word counts and
    [total_steps = 0]. *)
Definition prologue : M Z :=
  modify (set_best_score 0%Q);;
  s ← get;
  emit (EvTally (Tally.tally_parameters (named_parameters (model s))));;
  src_words ← lift (words_of fst (train_data s));
  trg_words ← lift (words_of snd (train_data s));
  iter_per_epoch ← lift (py_floordiv (src_words + trg_words) (wbatchsize args));
  modify (set_total_steps 0);;
  mret iter_per_epoch.

(** Lines 99-199: everything up to the end of the last epoch. *)
Definition training : M unit :=
  iter_per_epoch ← prologue;
  run_epochs iter_per_epoch.

(** train.py, [main]. *)
Definition main : M unit :=
  training;;
  final_scoring.

(** The state [main] starts from: a freshly built model, the corpus, and
    whatever the disk holds. *)
Definition initial (model0 : Model) (train_data0 : list Example)
    (model_file0 : option Model) (files0 : gmap string string) : RunState :=
  mkRunState model0 train_data0 0 0%Q fresh fresh fresh 0%R model_file0 files0 [].

End Main.

Arguments model {Model} _.
Arguments train_data {Model} _.
Arguments total_steps {Model} _.
Arguments best_score {Model} _.
Arguments report_stats {Model} _.
Arguments train_stats {Model} _.
Arguments valid_stats {Model} _.
Arguments grad_norm {Model} _.
Arguments model_file {Model} _.
Arguments files {Model} _.
Arguments log {Model} _.

(** Events of the checkpoint machinery and of the output writer. *)
Definition is_bleu (e : Event) : bool :=
  match e with EvBleu _ _ _ => true | _ => false end.

Definition is_torch_save (e : Event) : bool :=
  match e with EvTorchSave => true | _ => false end.

Definition is_torch_load (e : Event) : bool :=
  match e with EvTorchLoad => true | _ => false end.

(** An event of the training phase proper: neither scoring, nor the model
    file, nor the output files. *)
Definition is_quiet (e : Event) : bool :=
  match e with
  | EvBleu _ _ _ | EvTorchSave | EvTorchLoad | EvSaveOutput _ => false
  | EvTally _ | EvProgress _ | EvEpochSummary _ _ _ _ => true
  end.

(** A property of the state kept by a program, also when it raises. *)
Definition preserves {Model A : Type} (I : RunState Model -> Prop) (m : M Model A) : Prop :=
  forall s, I s -> I (m s).1.

(** Since the state [s0]: the best score is still the initial 0, the disk
    is untouched and only quiet events were logged. *)
Definition untouched {Model : Type} (s0 s : RunState Model) : Prop :=
  best_score s = 0%Q /\
  model_file s = model_file s0 /\
  files s = files s0 /\
  exists evs, log s = log s0 ++ evs /\ forallb is_quiet evs = true.

(** The paths handed to [save_output], in order. *)
Definition outputs_written (evs : list Event) : list string :=
  omap (fun e => match e with EvSaveOutput outf => Some outf | _ => None end) evs.

End Train.

(** ** A small run *)

Module Scenario.

Import Batching Stats Evaluator Train.

(** A model is the number of optimiser steps applied to it; it translates
    by copying the source, cut at the maximum length. *)
Definition Model : Type := nat.

Definition translate (m : Model) (sources : list (list Z)) (max_length : Z)
    (beam : BeamArg) : list (list Z) :=
  take (Z.to_nat max_length) <$> sources.

Definition bleu_evaluate (references hypotheses : list (list Z)) : Q :=
  inject_Z (py_len hypotheses).

Definition named_parameters (m : Model) : list (string * Z) :=
  [("encoder.embed", 6); ("decoder.embed", 6); ("generator.bias", 2);
   ("affine.weight", 3)].

Definition train_step (m : Model) (b : Batch) : Model * Statistics * R :=
  (S m, mkStatistics 1 1 0 (batch_cost b) 1, 1%R).

Definition eval_batch (m : Model) (b : Batch) : Statistics :=
  mkStatistics 1 0 0 (batch_cost b) 1.

Definition shuffle (epoch : Z) (l : list Example) : list Example := reverse l.
Definition interleave_keys (a b : Z) : Z := 2 * a + b.
Definition random_shuffler (l : list Batch) : list Batch := reverse l.
Definition time_s : R := 0%R.

Definition args : Args := mkArgs 2 8 8 1 2 false "dev.hyp" "test.hyp".

(** The corpus of the scenario of section 8. *)
Definition corpus : list Example := [([2; 5; 3], [7; 5]); ([9], [9; 9])].

Definition id2w : gmap Z string :=
  list_to_map [(2, "the"); (3, "cat"); (5, "sat"); (7, "le"); (9, "chat")].

Definition start : RunState Model :=
  initial Model 0%nat corpus (Some 0%nat) ∅.

(** The state of a run that has counted [n] steps. *)
Definition at_step (n : Z) : RunState Model := set_total_steps Model n start.

Definition scorer : CalculateBleu Model :=
  new Model 0%nat corpus "Dev Bleu" (batchsize args / 4) (Train.beam_size args).

End Scenario.

(** ** Counting characters of a text *)

Module Text.

(** The number of occurrences of a character in a string. *)
Fixpoint count_char (c : ascii) (s : string) : nat :=
  match s with
  | EmptyString => O
  | String a s' => ((if Ascii.eqb a c then 1 else 0) + count_char c s')%nat
  end.

Definition newline_char : ascii := ascii_of_nat 10.

(** The number of lines of a text: its line terminators. *)
Definition line_count (s : string) : nat := count_char newline_char s.

End Text.

(** ** Runs at the edges *)

Module EdgeScenario.

Import Batching Stats Evaluator Train.

(** A generation procedure that answers nothing, and a scorer that always
    scores 1. *)
Definition translate_none (m : Scenario.Model) (sources : list (list Z))
    (max_length : Z) (beam : BeamArg) : list (list Z) := [].

Definition bleu_one (references hypotheses : list (list Z)) : Q := 1%Q.

(** The configuration of the scenario with beam search of width 5, BLEU
    disabled and other output paths. *)
Definition args_beam : Args := mkArgs 2 8 8 5 2 true "dev.out" "test.out".

(** The configuration of the scenario with a batch size of 3. *)
Definition args_small : Args := mkArgs 2 8 3 1 2 false "dev.hyp" "test.hyp".

(** The start of the scenario without a model file on disk. *)
Definition start_no_file : RunState Scenario.Model :=
  initial Scenario.Model 0%nat Scenario.corpus None ∅.

(** The start of the scenario with an empty training corpus. *)
Definition start_empty : RunState Scenario.Model :=
  initial Scenario.Model 0%nat [] (Some 0%nat) ∅.

(** A scorer of the scenario with a batch size of 0. *)
Definition scorer_zero : CalculateBleu Scenario.Model :=
  new Scenario.Model 0%nat Scenario.corpus "Dev Bleu" 0 1.

End EdgeScenario.

(** * Verified properties *)

Lemma py_len_nonneg {A : Type} (l : list A) : 0 <= py_len l.
Proof. unfold py_len. lia. Qed.

Lemma py_len_app {A : Type} (l k : list A) : py_len (l ++ k) = py_len l + py_len k.
Proof. unfold py_len. rewrite length_app. lia. Qed.

(** ** Batching *)

Section BatchingFacts.

Import Batching.

Lemma example_cost_nonneg (ex : Example) : 0 <= example_cost ex.
Proof.
  unfold example_cost.
  pose proof (py_len_nonneg ex.1). pose proof (py_len_nonneg ex.2). lia.
Qed.

Lemma batch_cost_nonneg (b : Batch) : 0 <= batch_cost b.
Proof.
  induction b as [|ex b IH]; simpl; [lia|].
  pose proof (example_cost_nonneg ex). lia.
Qed.

Lemma batch_cost_app (b c : Batch) :
  batch_cost (b ++ c) = batch_cost b + batch_cost c.
Proof. induction b as [|ex b IH]; simpl; lia. Qed.

Lemma batch_cost_snoc (b : Batch) (ex : Example) :
  batch_cost (b ++ [ex]) = batch_cost b + example_cost ex.
Proof. rewrite batch_cost_app. simpl. lia. Qed.

(** The running size kept by [batch_size_func] is the cost of what has
    been appended, whatever the example counter says. *)
Lemma accumulate_cost (b : Batch) (count sofar : Z) :
  accumulate batch_size_func count sofar b = sofar + batch_cost b.
Proof.
  revert count sofar.
  induction b as [|ex b IH]; intros count sofar; simpl; [lia|].
  rewrite IH. unfold batch_size_func, example_cost. lia.
Qed.

Lemma nonempty_snoc (b : Batch) :
  b <> [] -> exists pre last, b = pre ++ [last].
Proof.
  induction b as [|x b IH] using rev_ind; [congruence|].
  intros _. exists b, x. reflexivity.
Qed.

(** Invariant of the sampler loop: the pending minibatch is strictly under
    budget, and its running size is its cost. *)
Lemma batch_from_bounded (B : Z) (data : list Example) :
  forall (minibatch : Batch) (size_so_far : Z) (b : Batch),
    size_so_far = batch_cost minibatch ->
    size_so_far < B ->
    b ∈ batch_from batch_size_func B minibatch size_so_far data ->
    exists pre last, b = pre ++ [last] /\ batch_cost pre < B.
Proof.
  induction data as [|ex rest IH]; intros minibatch size_so_far b Hsz Hlt Hin.
  - simpl in Hin. destruct minibatch as [|m ms] eqn:Hmb.
    + inversion Hin.
    + apply list_elem_of_singleton in Hin. subst b.
      destruct (nonempty_snoc (m :: ms)) as (pre & last & Heq); [discriminate|].
      exists pre, last. split; [exact Heq|].
      rewrite Heq, batch_cost_snoc in Hsz.
      pose proof (example_cost_nonneg last). lia.
  - simpl in Hin.
    assert (Hsize : batch_size_func ex (py_len (minibatch ++ [ex])) size_so_far
                    = batch_cost (minibatch ++ [ex])).
    { rewrite batch_cost_snoc. unfold batch_size_func, example_cost. lia. }
    destruct (B <=? _) eqn:Hfull in Hin.
    + apply elem_of_cons in Hin as [-> | Hin].
      * exists minibatch, ex. split; [reflexivity | lia].
      * pose proof (batch_cost_nonneg minibatch).
        apply (IH [] 0 b); [reflexivity | lia | exact Hin].
    + apply Z.leb_gt in Hfull.
      eapply IH; [exact Hsize | exact Hfull | exact Hin].
Qed.

Lemma pool_batches (fn : Example -> Z -> Z -> Z) (ik : Z -> Z -> Z)
    (shuffler : list Batch -> list Batch) (data : list Example) (B : Z) (b : Batch) :
  (forall l x, x ∈ shuffler l -> x ∈ l) ->
  b ∈ pool fn ik shuffler data B ->
  exists p, b ∈ batch fn (sorted ik p) B.
Proof.
  intros Hsh Hin. unfold pool in Hin.
  apply list_elem_of_In, in_flat_map in Hin as (p & _ & Hb).
  exists p. apply Hsh, list_elem_of_In, Hb.
Qed.

(** C3: for every corpus and every budget B > 0, the size accumulated by
    the batching policy over a batch is the sum over its examples of source
    length plus target length, and every batch the training iterator
    produces is within the budget once the example appended last is set
    aside: only that one example can carry the batch over B. *)
Theorem C3_batch_cost_bounded
    (interleave_keys : Z -> Z -> Z) (random_shuffler : list Batch -> list Batch)
    (train_data : list Example) (B : Z) (b : Batch) :
  0 < B ->
  (forall l x, x ∈ random_shuffler l -> x ∈ l) ->
  b ∈ train_iter interleave_keys random_shuffler train_data B ->
  accumulate batch_size_func 0 0 b = batch_cost b /\
  exists pre last,
    b = pre ++ [last] /\
    batch_cost pre <= B /\
    batch_cost b = batch_cost pre + example_cost last.
Proof.
  intros HB Hsh Hin. split.
  - rewrite accumulate_cost. lia.
  - apply pool_batches in Hin as (p & Hin); [|exact Hsh].
    apply batch_from_bounded in Hin as (pre & last & -> & Hlt);
      [| reflexivity | simpl; lia].
    exists pre, last. rewrite batch_cost_snoc. repeat split; lia.
Qed.

End BatchingFacts.

(** ** The training run *)

Section TrainFacts.

Import Batching Stats Train.

Variable Model : Type.
Variable translate : Model -> list (list Z) -> Z -> Evaluator.BeamArg -> list (list Z).
Variable bleu_evaluate : list (list Z) -> list (list Z) -> Q.
Variable named_parameters : Model -> list (string * Z).
Variable train_step : Model -> Batch -> Model * Statistics * R.
Variable eval_batch : Model -> Batch -> Statistics.
Variable shuffle : Z -> list Example -> list Example.
Variable interleave_keys : Z -> Z -> Z.
Variable random_shuffler : list Batch -> list Batch.
Variable time_s : R.
Variable args : Args.
Variable dev_data test_data : list Example.
Variable id2w : gmap Z string.

Abbreviation St := (RunState Model).
Abbreviation Prog := (M Model).

#[local] Existing Instance M_ret.
#[local] Existing Instance M_bind.

Lemma preserves_ret {A : Type} (I : St -> Prop) (a : A) :
  preserves I (mret a : Prog A).
Proof. intros s Hs. exact Hs. Qed.

Lemma preserves_bind {A B : Type} (I : St -> Prop) (m : Prog A) (f : A -> Prog B) :
  preserves I m -> (forall a, preserves I (f a)) ->
  preserves I (m ≫= f).
Proof.
  intros Hm Hf s Hs. unfold mbind, M_bind.
  specialize (Hm s Hs). destruct (m s) as [s' [a|e]]; simpl in *.
  - apply Hf, Hm.
  - exact Hm.
Qed.

Lemma preserves_get (I : St -> Prop) : preserves I (get Model).
Proof. intros s Hs. exact Hs. Qed.

Lemma preserves_lift {A : Type} (I : St -> Prop) (r : result A) :
  preserves I (lift Model r).
Proof. intros s Hs. exact Hs. Qed.

Lemma preserves_modify (I : St -> Prop) (f : St -> St) :
  (forall s, I s -> I (f s)) -> preserves I (modify Model f).
Proof. intros Hf s Hs. apply Hf, Hs. Qed.

Lemma preserves_for_each {A : Type} (I : St -> Prop) (body : A -> Prog unit) (l : list A) :
  (forall x, preserves I (body x)) -> preserves I (for_each Model body l).
Proof.
  intros Hbody. induction l as [|x l IH]; simpl.
  - apply preserves_ret.
  - apply preserves_bind; [apply Hbody | intros _; exact IH].
Qed.

(** *** The cadence guard and the step loop *)

Lemma cadence_never_due (n : Z) : 0 <= n -> cadence_due n = false.
Proof.
  intros Hn. unfold cadence_due.
  change (1 mod 1000) with 1. apply Z.eqb_neq. lia.
Qed.

(** The loop invariant: the step counter is not negative and nothing of
    the checkpoint machinery has happened since [s0]. *)
#[local] Notation "'Inv' s0" := (fun s : St => 0 <= total_steps s /\ untouched s0 s)
  (at level 10, s0 at level 9, only parsing).

Ltac inv_field :=
  let H := fresh in
  intros ? [? (? & ? & ? & H)];
  split; [simpl; lia | split; [|split; [|split]]; simpl; auto].

Lemma Inv_emit (s0 : St) (e : Event) :
  is_quiet e = true -> preserves (Inv s0) (emit Model e).
Proof.
  intros He s [Hn (Hb & Hm & Hf & evs & Hl & Hq)].
  split; [exact Hn | split; [|split; [|split]]; simpl; auto].
  exists (evs ++ [e]). split.
  - rewrite Hl, app_assoc. reflexivity.
  - rewrite forallb_app, Hq. simpl. rewrite He. reflexivity.
Qed.

Lemma Inv_evaluation_block (s0 : St) :
  preserves (Inv s0) (evaluation_block Model translate bleu_evaluate args dev_data).
Proof.
  intros s Hs. unfold evaluation_block, mbind, M_bind, get.
  rewrite cadence_never_due by apply Hs. exact Hs.
Qed.

Lemma Inv_report_block (s0 : St) (epoch num_steps ipe : Z) (stat : Statistics) :
  preserves (Inv s0) (report_block Model time_s args epoch num_steps ipe stat).
Proof.
  unfold report_block.
  apply preserves_bind; [apply preserves_modify; inv_field | intros _].
  apply preserves_bind; [apply preserves_modify; inv_field | intros _].
  apply preserves_bind; [apply preserves_get | intros s].
  apply preserves_bind; [apply preserves_lift | intros [stats lines]].
  apply preserves_bind; [apply preserves_modify; inv_field | intros _].
  apply preserves_for_each. intros line. apply Inv_emit. reflexivity.
Qed.

Lemma Inv_step (s0 : St) (epoch ipe : Z) (it : Z * Batch) :
  preserves (Inv s0)
    (step Model translate bleu_evaluate train_step time_s args dev_data epoch ipe it).
Proof.
  unfold step. destruct it as [num_steps train_batch].
  apply preserves_bind; [apply preserves_modify; inv_field | intros _].
  apply preserves_bind; [apply preserves_lift | intros src_words].
  apply preserves_bind; [apply preserves_modify; inv_field | intros _].
  apply preserves_bind; [apply preserves_modify; inv_field | intros _].
  apply preserves_bind; [apply preserves_get | intros s].
  destruct (train_step (model s) train_batch) as [[model' stat] norm].
  apply preserves_bind; [apply preserves_modify; inv_field | intros _].
  apply preserves_bind; [apply preserves_modify; inv_field | intros _].
  apply preserves_bind; [apply Inv_report_block | intros _].
  apply Inv_evaluation_block.
Qed.

Lemma Inv_validation_pass (s0 : St) :
  preserves (Inv s0)
    (validation_pass Model eval_batch interleave_keys random_shuffler args dev_data).
Proof.
  unfold validation_pass.
  apply preserves_bind.
  - apply preserves_for_each. intros b. apply preserves_modify. inv_field.
  - intros _. apply preserves_bind; [apply preserves_get | intros s].
    apply Inv_emit. reflexivity.
Qed.

Lemma Inv_run_epoch (s0 : St) (ipe epoch : Z) :
  preserves (Inv s0)
    (run_epoch Model translate bleu_evaluate train_step eval_batch shuffle
       interleave_keys random_shuffler time_s args dev_data ipe epoch).
Proof.
  unfold run_epoch.
  apply preserves_bind; [apply preserves_modify; inv_field | intros _].
  apply preserves_bind; [apply preserves_get | intros s].
  apply preserves_bind; [apply preserves_modify; inv_field | intros _].
  apply preserves_bind; [apply preserves_modify; inv_field | intros _].
  apply preserves_bind; [apply preserves_modify; inv_field | intros _].
  apply preserves_bind; [apply preserves_modify; inv_field | intros _].
  apply preserves_bind; [| intros _; apply Inv_validation_pass].
  apply preserves_for_each. intros it. apply Inv_step.
Qed.

Lemma Inv_run_epochs (s0 : St) (ipe : Z) :
  preserves (Inv s0)
    (run_epochs Model translate bleu_evaluate train_step eval_batch shuffle
       interleave_keys random_shuffler time_s args dev_data ipe).
Proof.
  unfold run_epochs. apply preserves_for_each. intros e. apply Inv_run_epoch.
Qed.

(** The prologue resets the best score, logs the tally, and leaves the
    step counter at 0 when it does not raise. *)
Lemma prologue_spec (s0 : St) :
  match prologue Model named_parameters args s0 with
  | (s, Ok _) => Inv s0 s
  | (s, Raise _) => untouched s0 s
  end.
Proof.
  assert (Hq : forall (s : St) c,
             best_score s = 0%Q -> model_file s = model_file s0 ->
             files s = files s0 -> log s = log s0 ++ [EvTally c] ->
             untouched s0 s).
  { intros s c Hb Hm Hf Hl. split; [|split; [|split]]; auto.
    exists [EvTally c]. split; [exact Hl | reflexivity]. }
  unfold prologue, mbind, M_bind, modify, get, emit, lift, mret, M_ret. simpl.
  destruct (words_of fst (train_data s0)) as [sw|e]; simpl;
    [| eapply Hq; reflexivity].
  destruct (words_of snd (train_data s0)) as [tw|e]; simpl;
    [| eapply Hq; reflexivity].
  destruct (py_floordiv (sw + tw) (wbatchsize args)) as [ipe|e]; simpl;
    [| eapply Hq; reflexivity].
  split; [simpl; lia | eapply Hq; reflexivity].
Qed.

Lemma training_untouched (s0 : St) :
  untouched s0
    (training Model translate bleu_evaluate named_parameters train_step eval_batch
       shuffle interleave_keys random_shuffler time_s args dev_data s0).1.
Proof.
  unfold training, mbind, M_bind.
  pose proof (prologue_spec s0) as Hp.
  destruct (prologue Model named_parameters args s0) as [s1 [ipe|e]]; simpl.
  - apply (Inv_run_epochs s0 ipe s1 Hp).
  - exact Hp.
Qed.

Lemma bind_modify {B : Type} (f : St -> St) (k : unit -> Prog B) (s : St) :
  (modify Model f ≫= k) s = k tt (f s).
Proof. reflexivity. Qed.

Ltac keep_field :=
  apply preserves_modify; intros; assumption.

(** Every iteration of the step loop counts one step, also when it raises
    later on. *)
Lemma step_total_steps (s : St) (epoch ipe : Z) (it : Z * Batch) :
  0 <= total_steps s ->
  total_steps (step Model translate bleu_evaluate train_step time_s args dev_data
                 epoch ipe it s).1 = total_steps s + 1.
Proof.
  intros Hn. destruct it as [num_steps train_batch]. unfold step. rewrite bind_modify.
  match goal with
  | |- total_steps (?m ?s1).1 = ?n =>
      enough (H : preserves (fun t : St => total_steps t = n) m)
        by (apply H; reflexivity)
  end.
  apply preserves_bind; [apply preserves_lift | intros src_words].
  apply preserves_bind; [keep_field | intros _].
  apply preserves_bind; [keep_field | intros _].
  apply preserves_bind; [apply preserves_get | intros t].
  destruct (train_step (model t) train_batch) as [[model' stat] norm].
  apply preserves_bind; [keep_field | intros _].
  apply preserves_bind; [keep_field | intros _].
  apply preserves_bind.
  - unfold report_block.
    apply preserves_bind; [keep_field | intros _].
    apply preserves_bind; [keep_field | intros _].
    apply preserves_bind; [apply preserves_get | intros u].
    apply preserves_bind; [apply preserves_lift | intros [stats lines]].
    apply preserves_bind; [keep_field | intros _].
    apply preserves_for_each. intros line. keep_field.
  - intros _ u Hu. unfold evaluation_block, mbind, M_bind, get.
    rewrite cadence_never_due by lia. exact Hu.
Qed.

Lemma quiet_not_checkpoint (evs : list Event) :
  forallb is_quiet evs = true ->
  forall e, e ∈ evs -> is_bleu e = false /\ is_torch_save e = false.
Proof.
  intros Hq e He.
  apply list_elem_of_In in He.
  pose proof (proj1 (forallb_forall is_quiet evs) Hq e He) as Hqe.
  destruct e; simpl in *; try discriminate; split; reflexivity.
Qed.

(** C4: the guard of the evaluation block is false at every step count
    from 1 on, every iteration of the step loop keeps the best score at 0
    and the model file as it was, and over the whole of the epoch loop no
    BLEU pass and no save of the model happens. *)
Theorem C4_best_score_stays_zero :
  (forall n : Z, 1 <= n -> cadence_due n = false) /\
  (forall (s0 s : St) (epoch ipe : Z) (it : Z * Batch),
      0 <= total_steps s -> untouched s0 s ->
      let s' := (step Model translate bleu_evaluate train_step time_s args dev_data
                   epoch ipe it s).1 in
      1 <= total_steps s' /\ untouched s0 s') /\
  (forall s0 : St,
      let s1 := (training Model translate bleu_evaluate named_parameters train_step
                   eval_batch shuffle interleave_keys random_shuffler time_s args
                   dev_data s0).1 in
      best_score s1 = 0%Q /\
      model_file s1 = model_file s0 /\
      exists evs, log s1 = log s0 ++ evs /\
                  forall e, e ∈ evs -> is_bleu e = false /\ is_torch_save e = false).
Proof.
  split; [|split].
  - intros n Hn. apply cadence_never_due. lia.
  - intros s0 s epoch ipe it Hn Hu. simpl. split.
    + rewrite step_total_steps by exact Hn. lia.
    + apply (Inv_step s0 epoch ipe it s (conj Hn Hu)).
  - intros s0. simpl.
    destruct (training_untouched s0) as (Hb & Hm & _ & evs & Hl & Hq).
    split; [exact Hb | split; [exact Hm |]].
    exists evs. split; [exact Hl | apply quiet_not_checkpoint, Hq].
Qed.

(** *** The checkpoint decision *)

Lemma log_not_extended (l : list Event) (e : Event) : l <> l ++ [e].
Proof.
  intros H. apply (f_equal length) in H. rewrite length_app in H. simpl in H. lia.
Qed.

(** C2: the checkpoint decision saves the model and updates the best score
    if and only if the candidate score is at least the best score; on a
    tie it saves, on a strictly lower score it changes nothing, and right
    after a save the best score is the candidate score. *)
Theorem C2_checkpoint_iff_not_lower (score : Q) (s : St) :
  let s' := (maybe_checkpoint Model score s).1 in
  (log s' = log s ++ [EvTorchSave] <-> (best_score s <= score)%Q) /\
  ((best_score s <= score)%Q ->
     model_file s' = Some (model s) /\ best_score s' = score) /\
  ((score < best_score s)%Q -> s' = s).
Proof.
  unfold maybe_checkpoint, mbind, M_bind, get. simpl.
  destruct (Qle_bool (best_score s) score) eqn:Hle; simpl.
  - apply Qle_bool_iff in Hle. split; [|split].
    + split; [intros _; exact Hle | intros _; reflexivity].
    + intros _. split; reflexivity.
    + intros Hlt. exfalso. apply (Qlt_not_le _ _ Hlt), Hle.
  - assert (Hnle : ~ (best_score s <= score)%Q).
    { intros H. apply Qle_bool_iff in H. congruence. }
    split; [|split].
    + split; [intros H; exfalso; apply (log_not_extended _ _ H) | intros H; contradiction].
    + intros H. contradiction.
    + intros _. reflexivity.
Qed.

(** *** Reporting *)

Lemma minus_one_mod (r : Z) : 0 < r -> (-1) mod r = r - 1.
Proof.
  intros Hr. symmetry. apply (Z.mod_unique (-1) r (-1) (r - 1)); lia.
Qed.

(** C6: with a positive report interval, [report_func] prints a progress
    line and hands back a fresh report-window aggregate exactly when the
    step index modulo the interval is the interval minus one, and hands the
    aggregate back unchanged otherwise; in the step loop the epoch
    aggregate receives the statistics of the step either way and is not
    reset. *)
Theorem C6_report_window_reset (epoch num_steps ipe : Z) (start_time gn : R)
    (rs stat : Statistics) (s : St) :
  0 < report_every args ->
  let due := num_steps mod report_every args =? report_every args - 1 in
  report_func epoch num_steps ipe start_time rs (report_every args) gn =
    Ok (if due
        then (fresh, [mkProgressLine epoch (num_steps + 1) ipe start_time gn rs])
        else (rs, [])) /\
  let s' := (report_block Model time_s args epoch num_steps ipe stat s).1 in
  train_stats s' = update (train_stats s) stat /\
  report_stats s' = (if due then fresh else update (report_stats s) stat) /\
  log s' = log s ++
           (if due
            then [EvProgress (mkProgressLine epoch (num_steps + 1) ipe time_s
                                (grad_norm s / IZR (num_steps + 1))
                                (update (report_stats s) stat))]
            else []).
Proof.
  intros Hr due.
  assert (Hfun : forall st g rs',
             report_func epoch num_steps ipe st rs' (report_every args) g =
             Ok (if due
                 then (fresh, [mkProgressLine epoch (num_steps + 1) ipe st g rs'])
                 else (rs', []))).
  { intros st g rs'. unfold report_func, py_mod.
    replace (report_every args =? 0) with false by (symmetry; apply Z.eqb_neq; lia).
    rewrite minus_one_mod by exact Hr. fold due. destruct due; reflexivity. }
  split; [apply Hfun|].
  unfold report_block, mbind, M_bind, modify, get, lift. simpl.
  rewrite Hfun. destruct due; simpl.
  - repeat split; reflexivity.
  - repeat split; try reflexivity. rewrite app_nil_r. reflexivity.
Qed.

End TrainFacts.

(** ** Output writer *)

Section OutputFacts.

Import Output.

Lemma string_app_assoc (a b c : string) : (a +:+ b) +:+ c = a +:+ (b +:+ c).
Proof.
  induction a as [|x a IH]; [reflexivity|].
  change (String x ((a +:+ b) +:+ c) = String x (a +:+ (b +:+ c))).
  rewrite IH. reflexivity.
Qed.

Lemma string_app_nil_r (a : string) : a +:+ EmptyString = a.
Proof.
  induction a as [|x a IH]; [reflexivity|].
  change (String x (a +:+ EmptyString) = String x a).
  rewrite IH. reflexivity.
Qed.

Lemma lookup_words_known (vocab : gmap Z string) (sent : list Z) :
  (forall y, y ∈ sent -> is_Some (vocab !! y)) ->
  lookup_words vocab sent = Ok (map (fun y => default EmptyString (vocab !! y)) sent).
Proof.
  induction sent as [|y sent IH]; intros Hin; simpl; [reflexivity|].
  destruct (Hin y) as [w Hw]; [apply list_elem_of_here|].
  rewrite Hw, IH; [reflexivity|].
  intros z Hz. apply Hin, list_elem_of_further, Hz.
Qed.

Lemma write_lines_known (vocab : gmap Z string) (hypotheses : list (list Z)) :
  (forall sent y, sent ∈ hypotheses -> y ∈ sent -> is_Some (vocab !! y)) ->
  forall written,
    write_lines vocab hypotheses written =
    (written +:+ foldr String.append EmptyString (map (rendered_line vocab) hypotheses),
     Ok tt).
Proof.
  induction hypotheses as [|sent rest IH]; intros Hin written; simpl.
  - rewrite string_app_nil_r. reflexivity.
  - rewrite lookup_words_known
      by (intros y Hy; apply (Hin sent y); [apply list_elem_of_here | exact Hy]).
    rewrite IH
      by (intros s y Hs Hy; apply (Hin s y); [apply list_elem_of_further, Hs | exact Hy]).
    rewrite string_app_assoc. reflexivity.
Qed.

End OutputFacts.

(** ** Parameter tally *)

Section TallyFacts.

Import Tally.

Lemma is_decoder_always (name : string) : is_decoder name = true.
Proof. reflexivity. Qed.

Lemma tally_loop_buckets (params : list (string * Z)) (enc dec : Z) :
  tally_loop params enc dec =
  (enc + total_elements (filter (fun p => is_encoder p.1 = true) params),
   dec + total_elements (filter (fun p => is_encoder p.1 = false) params)).
Proof.
  revert enc dec.
  induction params as [|[name n] params IH]; intros enc dec; simpl.
  - unfold total_elements. simpl. f_equal; lia.
  - rewrite !filter_cons. simpl.
    destruct (is_encoder name) eqn:He.
    + rewrite IH. repeat case_decide; try congruence.
      unfold total_elements. simpl. f_equal; lia.
    + rewrite ?is_decoder_always, IH. repeat case_decide; try congruence.
      unfold total_elements. simpl. f_equal; lia.
Qed.

Lemma total_elements_split (params : list (string * Z)) :
  total_elements (filter (fun p => is_encoder p.1 = true) params) +
  total_elements (filter (fun p => is_encoder p.1 = false) params) =
  total_elements params.
Proof.
  induction params as [|[name n] params IH]; [reflexivity|].
  rewrite !filter_cons. simpl.
  destruct (is_encoder name) eqn:He; repeat case_decide; try congruence;
    unfold total_elements in *; simpl; lia.
Qed.

(** C10: the second branch condition of the tally is true of every name,
    so a parameter whose name does not contain "encoder" is counted as
    decoder whatever it is called, and every named parameter is counted in
    exactly one of the two buckets. *)
Theorem C10_tally_two_buckets (params : list (string * Z)) :
  (forall name : string, is_decoder name = true) /\
  (forall (name : string) (n enc dec : Z) (rest : list (string * Z)),
      tally_loop ((name, n) :: rest) enc dec =
      if py_in_str "encoder" name
      then tally_loop rest (enc + n) dec
      else tally_loop rest enc (dec + n)) /\
  tally_parameters params =
    (total_elements params,
     total_elements (filter (fun p => py_in_str "encoder" p.1 = true) params),
     total_elements (filter (fun p => py_in_str "encoder" p.1 = false) params)) /\
  (let '(n_params, enc, dec) := tally_parameters params in enc + dec = n_params).
Proof.
  split; [exact is_decoder_always | split; [|split]].
  - intros name n enc dec rest. simpl. unfold is_encoder.
    destruct (py_in_str "encoder" name); [reflexivity|].
    rewrite ?is_decoder_always. reflexivity.
  - unfold tally_parameters. rewrite tally_loop_buckets. reflexivity.
  - unfold tally_parameters. rewrite tally_loop_buckets.
    apply total_elements_split.
Qed.

End TallyFacts.

(** ** Corpus scoring *)

Section BlockFacts.

Import Evaluator.

#[local] Open Scope nat_scope.

(** Cutting a list at multiples of the batch size *)

Lemma blocks_consecutive {A : Type} (size : nat) :
  0 < size ->
  forall (fuel n : nat) (l : list A),
    length l <= fuel ->
    length l <= n * size ->
    (n <> 0 -> (n - 1) * size < length l) ->
    (fun j => take size (drop (j * size) l)) <$> seq 0 n =
    consecutive_batches fuel size l.
Proof.
  intros Hsize. induction fuel as [|fuel IH]; intros n l Hfuel Hup Hlow.
  - destruct l; [|simpl in Hfuel; lia].
    destruct n as [|n]; [reflexivity | simpl in Hlow; lia].
  - destruct l as [|x l].
    + destruct n as [|n]; [reflexivity | simpl in Hlow; lia].
    + destruct n as [|n]; [simpl in Hup; lia|].
      cbn [consecutive_batches]. rewrite <- (IH n).
      * cbn [seq fmap list_fmap]. f_equal.
        rewrite <- seq_shift, <- list_fmap_compose.
        apply list_fmap_ext. intros _ j _. unfold compose.
        rewrite drop_drop. reflexivity.
      * rewrite length_drop. simpl in *. lia.
      * rewrite length_drop. simpl in *. lia.
      * intros Hn. rewrite length_drop.
        assert (Hlt : (S n - 1) * size < length (x :: l)) by (apply Hlow; lia).
        replace (S n - 1) with n in Hlt by lia.
        destruct n; [lia|]. simpl in *. lia.
Qed.

Lemma blocks_concat {A : Type} (size : nat) (n : nat) :
  forall l : list A,
    length l <= n * size ->
    concat ((fun j => take size (drop (j * size) l)) <$> seq 0 n) = l.
Proof.
  induction n as [|n IH]; intros l Hl.
  - destruct l; [reflexivity | simpl in Hl; lia].
  - cbn [seq fmap list_fmap concat].
    rewrite <- seq_shift, <- list_fmap_compose.
    rewrite (list_fmap_ext _ (fun j => take size (drop (j * size) (drop size l)))).
    + rewrite IH; [apply take_drop|]. rewrite length_drop. simpl in Hl. lia.
    + intros _ j _. unfold compose. rewrite drop_drop. reflexivity.
Qed.

Lemma blocks_lookup {A B : Type} (T : list A -> list B) (size : nat) :
  (forall l, length (T l) = length l) ->
  forall (q : nat) (bs : list (list A)) (blk : list A) (r : nat),
    (forall j blk', j < q -> bs !! j = Some blk' -> length blk' = size) ->
    bs !! q = Some blk ->
    r < length blk ->
    concat (T <$> bs) !! (q * size + r) = T blk !! r.
Proof.
  intros HT. induction q as [|q IH]; intros bs blk r Hfull Hq Hr.
  - destruct bs as [|b0 bs]; [discriminate|].
    simpl in Hq. injection Hq as ->.
    cbn [fmap list_fmap concat]. simpl.
    apply lookup_app_l. rewrite HT. exact Hr.
  - destruct bs as [|b0 bs]; [discriminate|].
    cbn [fmap list_fmap concat].
    assert (Hb0 : length (T b0) = size).
    { rewrite HT. apply (Hfull 0 b0); [lia | reflexivity]. }
    rewrite lookup_app_r by (rewrite Hb0; simpl; lia).
    replace (S q * size + r - length (T b0)) with (q * size + r)
      by (rewrite Hb0; simpl; lia).
    apply IH; [| exact Hq | exact Hr].
    intros j blk' Hj Hblk. apply (Hfull (S j) blk'); [lia | exact Hblk].
Qed.

Lemma block_count (len b : Z) :
  (0 <= len)%Z -> (0 < b)%Z ->
  let n := Z.to_nat ((len + b - 1) / b) in
  Z.to_nat len <= n * Z.to_nat b /\
  (n <> 0 -> (n - 1) * Z.to_nat b < Z.to_nat len).
Proof.
  intros Hlen Hb n.
  pose proof (Z.div_mod (len + b - 1) b ltac:(lia)) as Hdm.
  pose proof (Z.mod_pos_bound (len + b - 1) b Hb) as Hmod.
  assert (Hq : (0 <= (len + b - 1) / b)%Z) by (apply Z.div_pos; lia).
  assert (Hn : Z.of_nat n = ((len + b - 1) / b)%Z) by (unfold n; lia).
  split.
  - apply Nat2Z.inj_le. rewrite Nat2Z.inj_mul, Hn, !Z2Nat.id by lia. nia.
  - intros Hn0. apply Nat2Z.inj_lt.
    rewrite Nat2Z.inj_mul, Nat2Z.inj_sub, Hn, !Z2Nat.id by lia. simpl. nia.
Qed.

End BlockFacts.

Section EvaluatorFacts.

Import Batching Evaluator.

Variable Model : Type.
Variable translate : Model -> list (list Z) -> Z -> BeamArg -> list (list Z).
Variable bleu_evaluate : list (list Z) -> list (list Z) -> Q.

Abbreviation Self := (CalculateBleu Model).
Abbreviation generate' := (generate Model translate).
Abbreviation call' := (call Model translate bleu_evaluate).

(** The translations of one logged call. *)
Abbreviation answer self c :=
  (translate (model (self : Self)) (gc_sources c) (gc_max_length c) (gc_beam c)).

Lemma generate_mode (self : Self) (sources : list (list Z)) :
  generate' self sources =
  (translate (model self) sources (max_length self) (generation_mode (beam_size self)),
   mkGenCall sources (max_length self) (generation_mode (beam_size self))).
Proof.
  unfold generate, generation_mode.
  destruct (Z.ltb_spec 1 (beam_size self)); case_decide; try lia; reflexivity.
Qed.

(** The sources of the batch that starts at index [i]. *)
Abbreviation sources_at self i :=
  ((py_slice (test_data (self : Self)) i (i + batch self)).*1).

Lemma call_loop_unfold (self : Self) (indices : list Z) :
  forall references hypotheses calls,
    call_loop Model translate self indices references hypotheses calls =
    (references ++ concat ((fun i => (py_slice (test_data self) i (i + batch self)).*2)
                             <$> indices),
     hypotheses ++ concat ((fun i => (generate' self (sources_at self i)).1) <$> indices),
     calls ++ ((fun i => (generate' self (sources_at self i)).2) <$> indices)).
Proof.
  induction indices as [|i rest IH]; intros references hypotheses calls; simpl.
  - rewrite !app_nil_r. reflexivity.
  - destruct (generate' self (sources_at self i)) as [ys c] eqn:Hg.
    rewrite IH, <- !app_assoc. simpl. reflexivity.
Qed.

(** The sources of batch number [j] of a corpus cut every [batch] examples. *)
Abbreviation block self j :=
  (take (Z.to_nat (batch (self : Self)))
        (drop (j * Z.to_nat (batch self)) ((test_data self).*1))).

Abbreviation n_blocks self :=
  (Z.to_nat ((py_len (test_data (self : Self)) + batch self - 1) / batch self)).

Lemma sources_at_block (self : Self) (j : nat) :
  0 < batch self ->
  sources_at self (Z.of_nat j * batch self) = block self j.
Proof.
  intros Hb. unfold py_slice. rewrite fmap_take, fmap_drop. f_equal.
  - f_equal. lia.
  - f_equal. rewrite Z2Nat.inj_mul, Nat2Z.id by lia. reflexivity.
Qed.

(** With a positive batch size the pass returns, and what it did is
    determined by the corpus cut at multiples of the batch size. *)
Lemma call_positive (self : Self) :
  0 < batch self ->
  exists score,
    call' self =
    ((fun j => mkGenCall (block self j) (max_length self)
                 (generation_mode (beam_size self))) <$> seq 0 (n_blocks self),
     Ok (score,
         concat ((fun srcs => translate (model self) srcs (max_length self)
                                (generation_mode (beam_size self)))
                   <$> ((fun j => block self j) <$> seq 0 (n_blocks self))))).
Proof.
  intros Hb. unfold call, py_range0.
  replace (batch self =? 0) with false by (symmetry; apply Z.eqb_neq; lia).
  replace (batch self <? 0) with false by (symmetry; apply Z.ltb_ge; lia).
  rewrite call_loop_unfold. simpl. eexists. f_equal.
  - rewrite <- list_fmap_compose. apply list_fmap_ext. intros _ j _.
    unfold compose. rewrite generate_mode, sources_at_block by exact Hb. reflexivity.
  - do 2 f_equal. rewrite <- !list_fmap_compose. f_equal.
    apply list_fmap_ext. intros _ j _.
    unfold compose. rewrite generate_mode, sources_at_block by exact Hb. reflexivity.
Qed.

(** C5: with a positive batch size and a model that answers every batch
    with one translation per source, the scoring pass cuts the corpus into
    consecutive batches of the batch size, in corpus order, and returns
    one hypothesis per example: hypothesis [i] is the answer at the place
    of source [i] in the call that held it. *)
Theorem C5_one_hypothesis_per_example (self : Self) :
  0 < batch self ->
  (forall srcs len beam, length (translate (model self) srcs len beam) = length srcs) ->
  exists calls score hypotheses,
    call' self = (calls, Ok (score, hypotheses)) /\
    gc_sources <$> calls =
      consecutive_batches (length (test_data self)) (Z.to_nat (batch self))
                          ((test_data self).*1) /\
    concat (gc_sources <$> calls) = (test_data self).*1 /\
    hypotheses = concat ((fun c => answer self c) <$> calls) /\
    length hypotheses = length (test_data self) /\
    forall i : nat,
      (i < length (test_data self))%nat ->
      exists c,
        calls !! (i / Z.to_nat (batch self))%nat = Some c /\
        gc_sources c !! (i mod Z.to_nat (batch self))%nat = (test_data self).*1 !! i /\
        hypotheses !! i = answer self c !! (i mod Z.to_nat (batch self))%nat.
Proof.
  intros Hb HT.
  destruct (call_positive self Hb) as [score Hcall].
  set (bn := Z.to_nat (batch self)) in *.
  set (n := n_blocks self) in *.
  set (mode := generation_mode (beam_size self)) in *.
  set (srcs := (test_data self).*1) in *.
  assert (Hbn : (0 < bn)%nat) by (unfold bn; lia).
  assert (Hlen : length srcs = length (test_data self)) by apply length_fmap.
  destruct (block_count (py_len (test_data self)) (batch self)) as [Hup Hlow];
    [apply py_len_nonneg | exact Hb |].
  fold n bn in Hup, Hlow. unfold py_len in Hup, Hlow. rewrite Nat2Z.id in Hup, Hlow.
  rewrite <- Hlen in Hup, Hlow.
  assert (Hsources :
            gc_sources <$> ((fun j => mkGenCall (take bn (drop (j * bn) srcs))
                                        (max_length self) mode) <$> seq 0 n)
            = (fun j => take bn (drop (j * bn) srcs)) <$> seq 0 n).
  { rewrite <- list_fmap_compose. apply list_fmap_ext. intros _ j _. reflexivity. }
  assert (Hanswers :
            (fun c => translate (model self) (gc_sources c) (gc_max_length c) (gc_beam c))
              <$> ((fun j => mkGenCall (take bn (drop (j * bn) srcs))
                               (max_length self) mode) <$> seq 0 n)
            = (fun l => translate (model self) l (max_length self) mode)
                <$> ((fun j => take bn (drop (j * bn) srcs)) <$> seq 0 n)).
  { rewrite <- !list_fmap_compose. apply list_fmap_ext. intros _ j _. reflexivity. }
  eexists _, score, _. split; [exact Hcall|].
  split; [|split; [|split; [|split]]].
  - rewrite Hsources, <- Hlen.
    apply blocks_consecutive; [exact Hbn | lia | lia | exact Hlow].
  - rewrite Hsources. apply blocks_concat. lia.
  - rewrite Hanswers. reflexivity.
  - transitivity (length (concat ((fun j => take bn (drop (j * bn) srcs)) <$> seq 0 n)));
      [| rewrite blocks_concat by lia; exact Hlen].
    rewrite !length_concat. f_equal.
    rewrite <- !list_fmap_compose. apply list_fmap_ext. intros _ j _.
    unfold compose. apply HT.
  - intros i Hi.
    pose proof (Nat.div_mod_eq i bn) as Hdiv.
    pose proof (Nat.mod_upper_bound i bn ltac:(lia)) as Hmod.
    set (q := (i / bn)%nat) in *. set (r := (i mod bn)%nat) in *.
    assert (Hqn : (q < n)%nat) by nia.
    exists (mkGenCall (take bn (drop (q * bn) srcs)) (max_length self) mode).
    split; [|split].
    + rewrite list_lookup_fmap, lookup_seq_lt by exact Hqn. reflexivity.
    + simpl. rewrite lookup_take_lt, lookup_drop by exact Hmod. f_equal. lia.
    + simpl. replace i with (q * bn + r)%nat at 1 by lia.
      apply (blocks_lookup (fun l => translate (model self) l (max_length self) mode) bn).
      * intros l. apply HT.
      * intros j blk' Hj Hblk.
        rewrite list_lookup_fmap, lookup_seq_lt in Hblk by lia.
        simpl in Hblk. injection Hblk as <-.
        rewrite length_take, length_drop. nia.
      * rewrite list_lookup_fmap, lookup_seq_lt by exact Hqn. reflexivity.
      * rewrite length_take, length_drop. nia.
Qed.

(** C8: every call the scoring pass makes to the generation interface of
    the model asks for beam search of the configured width when that width
    is greater than 1, and for greedy decoding otherwise, in both cases up
    to the configured maximum length; the hypotheses returned are the
    answers to these calls. *)
Theorem C8_beam_iff_width_above_one (self : Self) (c : GenCall) :
  c ∈ (call' self).1 ->
  gc_max_length c = max_length self /\
  (1 < beam_size self -> gc_beam c = BeamWidth (beam_size self)) /\
  (beam_size self <= 1 -> gc_beam c = BeamFalse) /\
  (gc_beam c <> BeamFalse <-> 1 < beam_size self) /\
  forall score hypotheses,
    (call' self).2 = Ok (score, hypotheses) ->
    hypotheses = concat ((fun c => answer self c) <$> (call' self).1).
Proof.
  intros Hc.
  assert (Hcalls : exists indices,
             (call' self).1 =
               (fun i => mkGenCall (sources_at self i) (max_length self)
                           (generation_mode (beam_size self))) <$> indices /\
             forall score hypotheses,
               (call' self).2 = Ok (score, hypotheses) ->
               hypotheses = concat ((fun c => answer self c) <$> (call' self).1)).
  { unfold call.
    destruct (py_range0 (py_len (test_data self)) (batch self)) as [indices|e].
    - exists indices. rewrite call_loop_unfold. simpl.
      assert (Heq : (fun i => (generate' self (sources_at self i)).2) <$> indices =
                    (fun i => mkGenCall (sources_at self i) (max_length self)
                                (generation_mode (beam_size self))) <$> indices).
      { apply list_fmap_ext. intros _ i _. rewrite generate_mode. reflexivity. }
      split; [exact Heq|].
      intros score hypotheses Hok. injection Hok as _ <-.
      rewrite Heq, <- list_fmap_compose. f_equal.
      apply list_fmap_ext. intros _ i _. unfold compose.
      rewrite generate_mode. reflexivity.
    - exists []. split; [reflexivity | intros ? ? Hok; discriminate Hok]. }
  destruct Hcalls as (indices & Heq & Hhyps).
  rewrite Heq in Hc. apply list_elem_of_fmap in Hc as (i & -> & _). simpl.
  unfold generation_mode.
  split; [reflexivity|]. case_decide; repeat split; try lia; try congruence; auto.
Qed.

End EvaluatorFacts.

(** ** Running statistics *)

Section StatsFacts.

Import Stats.

Lemma update_assoc (a b c : Statistics) :
  update (update a b) c = update a (update b c).
Proof. unfold update. simpl. f_equal; solve [lra | lia]. Qed.

Lemma update_comm (a b : Statistics) : update a b = update b a.
Proof. unfold update. f_equal; solve [lra | lia]. Qed.

Lemma update_swap (s a b : Statistics) :
  update (update s a) b = update (update s b) a.
Proof. rewrite !update_assoc, (update_comm a b). reflexivity. Qed.

Lemma merge_permutation (l l' : list Statistics) :
  l ≡ₚ l' -> forall s, foldl update s l = foldl update s l'.
Proof.
  induction 1 as [|x l l' _ IH|x y l|l l' l'' _ IH _ IH']; intros s; simpl.
  - reflexivity.
  - apply IH.
  - rewrite update_swap. reflexivity.
  - rewrite IH. apply IH'.
Qed.

(** C9: merging statistics is associative and commutative, so the
    aggregate of a window, and with it the perplexity and the accuracy read
    off it, does not depend on the order in which the updates of the
    batches are merged (losses taken as real numbers). *)
Theorem C9_merge_order_irrelevant :
  (forall a b c : Statistics, update (update a b) c = update a (update b c)) /\
  (forall a b : Statistics, update a b = update b a) /\
  (forall (s : Statistics) (l l' : list Statistics),
      l <> [] -> l ≡ₚ l' ->
      foldl update s l = foldl update s l' /\
      ppl (foldl update s l) = ppl (foldl update s l') /\
      accuracy (foldl update s l) = accuracy (foldl update s l')).
Proof.
  split; [exact update_assoc | split; [exact update_comm |]].
  intros s l l' _ Hp. rewrite (merge_permutation l l' Hp s). repeat split.
Qed.

End StatsFacts.

(** ** The whole run *)

Section RunFacts.

Import Batching Stats Train.

Variable Model : Type.
Variable translate : Model -> list (list Z) -> Z -> Evaluator.BeamArg -> list (list Z).
Variable bleu_evaluate : list (list Z) -> list (list Z) -> Q.
Variable named_parameters : Model -> list (string * Z).
Variable train_step : Model -> Batch -> Model * Statistics * R.
Variable eval_batch : Model -> Batch -> Statistics.
Variable shuffle : Z -> list Example -> list Example.
Variable interleave_keys : Z -> Z -> Z.
Variable random_shuffler : list Batch -> list Batch.
Variable time_s : R.
Variable args : Args.
Variable dev_data test_data : list Example.
Variable id2w : gmap Z string.

Abbreviation training' :=
  (training Model translate bleu_evaluate named_parameters train_step eval_batch
     shuffle interleave_keys random_shuffler time_s args dev_data).
Abbreviation final_scoring' :=
  (final_scoring Model translate bleu_evaluate args dev_data test_data id2w).
Abbreviation main' :=
  (main Model translate bleu_evaluate named_parameters train_step eval_batch
     shuffle interleave_keys random_shuffler time_s args dev_data test_data id2w).

Lemma quiet_no_output (evs : list Event) :
  forallb is_quiet evs = true -> outputs_written evs = [].
Proof.
  induction evs as [|e evs IH]; [reflexivity|].
  simpl. intros H. apply andb_true_iff in H as [He Hq].
  unfold outputs_written in *. simpl.
  destruct e; simpl in *; try discriminate; apply IH, Hq.
Qed.



End RunFacts.

(** ** The scenario *)

Section ScenarioFacts.

Import Batching Stats Evaluator Train.

Abbreviation sc_evaluation_block :=
  (evaluation_block Scenario.Model Scenario.translate Scenario.bleu_evaluate
     Scenario.args Scenario.corpus).

(** C1, as the code has it: with BLEU evaluation enabled, at step counts
    999, 1000 and 2000 the guard of the evaluation block is false and the
    block does nothing: no scoring pass, no checkpoint comparison. *)
Theorem C1_evaluation_block_skipped_at_cadence :
  no_bleu Scenario.args = false /\
  cadence_due 999 = false /\ cadence_due 1000 = false /\ cadence_due 2000 = false /\
  sc_evaluation_block (Scenario.at_step 999) = (Scenario.at_step 999, Ok tt) /\
  sc_evaluation_block (Scenario.at_step 1000) = (Scenario.at_step 1000, Ok tt) /\
  sc_evaluation_block (Scenario.at_step 2000) = (Scenario.at_step 2000, Ok tt).
Proof. repeat split. Qed.

(** *** The theorems at work on the scenario *)

Lemma untouched_refl (s : RunState Scenario.Model) :
  best_score s = 0%Q -> untouched s s.
Proof.
  intros Hb. split; [exact Hb | split; [reflexivity | split; [reflexivity|]]].
  exists []. rewrite app_nil_r. split; reflexivity.
Qed.

Lemma reverse_keeps_members (l : list Batch) (x : Batch) :
  x ∈ Scenario.random_shuffler l -> x ∈ l.
Proof. intros H. apply elem_of_reverse, H. Qed.

Lemma scenario_ids_known (sent : list Z) (y : Z) :
  sent ∈ [[2; 9]; [5]] -> y ∈ sent -> is_Some (Scenario.id2w !! y).
Proof.
  intros Hs Hy.
  repeat (apply elem_of_cons in Hs as [-> | Hs]); try (inversion Hs; fail);
    repeat (apply elem_of_cons in Hy as [-> | Hy]); try (inversion Hy; fail);
    eexists; reflexivity.
Qed.

Lemma C3_scenario_one_batch :
  let b := [([9], [9; 9]); ([2; 5; 3], [7; 5])] in
  accumulate batch_size_func 0 0 b = batch_cost b /\
  exists pre last,
    b = pre ++ [last] /\ batch_cost pre <= 8 /\
    batch_cost b = batch_cost pre + example_cost last.
Proof.
  apply (C3_batch_cost_bounded Scenario.interleave_keys Scenario.random_shuffler
           Scenario.corpus 8).
  - lia.
  - exact reverse_keeps_members.
  - vm_compute. apply list_elem_of_here.
Defined.

Lemma C4_scenario_first_step :
  cadence_due 1000 = false /\
  let s' := (step Scenario.Model Scenario.translate Scenario.bleu_evaluate
               Scenario.train_step Scenario.time_s Scenario.args Scenario.corpus
               0 2 (0, Scenario.corpus) Scenario.start).1 in
  1 <= total_steps s' /\ untouched Scenario.start s'.
Proof.
  destruct (C4_best_score_stays_zero Scenario.Model Scenario.translate
              Scenario.bleu_evaluate Scenario.named_parameters Scenario.train_step
              Scenario.eval_batch Scenario.shuffle Scenario.interleave_keys
              Scenario.random_shuffler Scenario.time_s Scenario.args Scenario.corpus)
    as (Hguard & Hstep & _).
  split.
  - apply Hguard. lia.
  - apply Hstep.
    + simpl. lia.
    + apply untouched_refl. reflexivity.
Defined.

Lemma C2_scenario_tie_saves :
  let s' := (maybe_checkpoint Scenario.Model 0%Q Scenario.start).1 in
  log s' = log Scenario.start ++ [EvTorchSave] /\
  model_file s' = Some (model Scenario.start) /\ best_score s' = 0%Q.
Proof.
  destruct (C2_checkpoint_iff_not_lower Scenario.Model 0%Q Scenario.start)
    as (Hiff & Hle & _).
  assert (H00 : (best_score Scenario.start <= 0)%Q) by (unfold Qle; simpl; lia).
  split.
  - apply Hiff, H00.
  - apply Hle, H00.
Defined.

Lemma C6_scenario_second_step_reports :
  let s' := (report_block Scenario.Model Scenario.time_s Scenario.args 0 1 2
               (mkStatistics 1 1 0 5 1) Scenario.start).1 in
  train_stats s' = update fresh (mkStatistics 1 1 0 5 1) /\
  report_stats s' = fresh.
Proof.
  destruct (C6_report_window_reset Scenario.Model Scenario.time_s Scenario.args
              0 1 2 0%R 0%R fresh (mkStatistics 1 1 0 5 1) Scenario.start)
    as (_ & Htrain & Hreport & _).
  - simpl. lia.
  - split; [exact Htrain | exact Hreport].
Defined.


Lemma scenario_translate_length (srcs : list (list Z)) (len : Z) (beam : BeamArg) :
  length (Scenario.translate (Evaluator.model Scenario.scorer) srcs len beam) = length srcs.
Proof. apply length_fmap. Qed.

Lemma C5_scenario_two_hypotheses :
  exists calls score hypotheses,
    call Scenario.Model Scenario.translate Scenario.bleu_evaluate Scenario.scorer
      = (calls, Ok (score, hypotheses)) /\
    length hypotheses = 2%nat.
Proof.
  destruct (C5_one_hypothesis_per_example Scenario.Model Scenario.translate
              Scenario.bleu_evaluate Scenario.scorer)
    as (calls & score & hypotheses & Hcall & _ & _ & _ & Hlen & _).
  - vm_compute. reflexivity.
  - exact scenario_translate_length.
  - exists calls, score, hypotheses. split; [exact Hcall | exact Hlen].
Defined.

Lemma C8_scenario_greedy :
  let c := mkGenCall [[2; 5; 3]; [9]] 50 BeamFalse in
  gc_max_length c = Evaluator.max_length Scenario.scorer /\ gc_beam c = BeamFalse.
Proof.
  destruct (C8_beam_iff_width_above_one Scenario.Model Scenario.translate
              Scenario.bleu_evaluate Scenario.scorer
              (mkGenCall [[2; 5; 3]; [9]] 50 BeamFalse))
    as (Hlen & _ & Hgreedy & _).
  - vm_compute. apply list_elem_of_here.
  - split; [exact Hlen | apply Hgreedy; vm_compute; discriminate].
Defined.

Lemma C9_scenario_two_batches :
  let a := mkStatistics 10 3 0 5 1 in
  let b := mkStatistics 4 2 0 3 1 in
  ppl (foldl update fresh [a; b]) = ppl (foldl update fresh [b; a]) /\
  accuracy (foldl update fresh [a; b]) = accuracy (foldl update fresh [b; a]).
Proof.
  destruct C9_merge_order_irrelevant as (_ & _ & Horder).
  destruct (Horder fresh [mkStatistics 10 3 0 5 1; mkStatistics 4 2 0 3 1]
              [mkStatistics 4 2 0 3 1; mkStatistics 10 3 0 5 1])
    as (_ & Hppl & Hacc).
  - discriminate.
  - apply perm_swap.
  - split; [exact Hppl | exact Hacc].
Defined.

End ScenarioFacts.

(** ** More on the output writer *)

Section OutputMore.

Import Output Text.

Lemma lookup_words_Ok (vocab : gmap Z string) (sent : list Z) (words : list string) :
  lookup_words vocab sent = Ok words ->
  words = map (fun y => default EmptyString (vocab !! y)) sent /\
  forall y, y ∈ sent -> is_Some (vocab !! y).
Proof.
  revert words. induction sent as [|y sent IH]; intros words H; simpl in H.
  - injection H as <-. split; [reflexivity | intros y Hy; inversion Hy].
  - destruct (vocab !! y) as [w|] eqn:Hy; [|discriminate].
    destruct (lookup_words vocab sent) as [ws|e]; [|discriminate].
    injection H as <-. destruct (IH ws eq_refl) as [-> Hall].
    split; [simpl; rewrite Hy; reflexivity|].
    intros z Hz. apply elem_of_cons in Hz as [-> | Hz]; [eexists; exact Hy | auto].
Qed.

Lemma lookup_words_Raise (vocab : gmap Z string) (sent : list Z) (e : PyError) :
  lookup_words vocab sent = Raise e ->
  e = KeyError /\ exists y, y ∈ sent /\ vocab !! y = None.
Proof.
  induction sent as [|y sent IH]; intros H; simpl in H; [discriminate|].
  destruct (vocab !! y) as [w|] eqn:Hy.
  - destruct (lookup_words vocab sent) as [ws|e']; [discriminate|].
    injection H as ->. destruct (IH eq_refl) as [-> (z & Hz & Hnone)].
    split; [reflexivity|]. exists z. split; [apply list_elem_of_further, Hz | exact Hnone].
  - injection H as <-. split; [reflexivity|].
    exists y. split; [apply list_elem_of_here | exact Hy].
Qed.

Lemma lookup_words_unknown (vocab : gmap Z string) (sent : list Z) (y : Z) :
  y ∈ sent -> vocab !! y = None -> lookup_words vocab sent = Raise KeyError.
Proof.
  intros Hy Hnone.
  destruct (lookup_words vocab sent) as [ws|e] eqn:H.
  - destruct (lookup_words_Ok _ _ _ H) as [_ Hall].
    destruct (Hall y Hy) as [w Hw]. congruence.
  - destruct (lookup_words_Raise _ _ _ H) as [-> _]. reflexivity.
Qed.

Lemma write_lines_prefix (vocab : gmap Z string) (done rest : list (list Z)) :
  (forall sent y, sent ∈ done -> y ∈ sent -> is_Some (vocab !! y)) ->
  forall written,
    write_lines vocab (done ++ rest) written =
    write_lines vocab rest
      (written +:+ foldr String.append EmptyString (map (rendered_line vocab) done)).
Proof.
  induction done as [|sent done IH]; intros Hin written; simpl.
  - rewrite string_app_nil_r. reflexivity.
  - rewrite lookup_words_known
      by (intros y Hy; apply (Hin sent y); [apply list_elem_of_here | exact Hy]).
    rewrite IH
      by (intros s y Hs Hy; apply (Hin s y); [apply list_elem_of_further, Hs | exact Hy]).
    rewrite string_app_assoc. reflexivity.
Qed.

Lemma write_lines_Ok (vocab : gmap Z string) (hypotheses : list (list Z)) :
  forall written written',
    write_lines vocab hypotheses written = (written', Ok tt) ->
    forall sent y, sent ∈ hypotheses -> y ∈ sent -> is_Some (vocab !! y).
Proof.
  induction hypotheses as [|s rest IH]; intros written written' H sent y Hs Hy.
  - inversion Hs.
  - simpl in H. destruct (lookup_words vocab s) as [ws|e] eqn:Hl; [|discriminate].
    apply elem_of_cons in Hs as [-> | Hs].
    + apply (lookup_words_Ok _ _ _ Hl), Hy.
    + apply (IH _ _ H sent y Hs Hy).
Qed.

Lemma write_lines_only_KeyError (vocab : gmap Z string) (hypotheses : list (list Z)) :
  forall written written' e,
    write_lines vocab hypotheses written = (written', Raise e) -> e = KeyError.
Proof.
  induction hypotheses as [|s rest IH]; intros written written' e H; simpl in H.
  - discriminate.
  - destruct (lookup_words vocab s) as [ws|e'] eqn:Hl.
    + apply (IH _ _ _ H).
    + injection H as _ <-. apply (lookup_words_Raise _ _ _ Hl).
Qed.

(** X1: once the output file is open, the loop of [save_output] over the
    hypotheses runs to its end exactly when every token id of every
    hypothesis is a key of the vocabulary; when it does not, what stops it
    is the [KeyError] of a lookup.  Failures of the file itself, on opening
    or on writing, are not part of this statement. *)
Theorem write_lines_completes_iff_ids_known (hypotheses : list (list Z))
    (vocab : gmap Z string) (written : string) :
  ((write_lines vocab hypotheses written).2 = Ok tt <->
   forall sent y, sent ∈ hypotheses -> y ∈ sent -> is_Some (vocab !! y)) /\
  ((write_lines vocab hypotheses written).2 = Ok tt \/
   (write_lines vocab hypotheses written).2 = Raise KeyError /\
   exists sent y, sent ∈ hypotheses /\ y ∈ sent /\ vocab !! y = None).
Proof.
  destruct (write_lines vocab hypotheses written) as [written' [[]|e]] eqn:H; simpl.
  - split; [|left; reflexivity].
    split; [intros _; apply (write_lines_Ok _ _ _ _ H) | reflexivity].
  - rewrite (write_lines_only_KeyError _ _ _ _ _ H) in *.
    assert (Hmissing : exists sent y, sent ∈ hypotheses /\ y ∈ sent /\ vocab !! y = None).
    { clear -H. revert written H.
      induction hypotheses as [|s rest IH]; intros written H; simpl in H; [discriminate|].
      destruct (lookup_words vocab s) as [ws|e0] eqn:Hl.
      - destruct (IH _ H) as (sent & y & Hs & Hy & Hnone).
        exists sent, y. split; [apply list_elem_of_further, Hs | split; assumption].
      - destruct (lookup_words_Raise _ _ _ Hl) as (_ & y & Hy & Hnone).
        exists s, y. split; [apply list_elem_of_here | split; assumption]. }
    split; [|right; split; [reflexivity | exact Hmissing]].
    split; [discriminate|].
    intros Hall. rewrite (write_lines_known vocab hypotheses Hall) in H. discriminate.
Qed.

(** X2: when a hypothesis holds an id that is missing from the vocabulary,
    [save_output] raises [KeyError] and leaves in the file the lines of the
    hypotheses before the first such one, and nothing of the later ones. *)
Theorem save_output_stops_at_unknown_id (done rest : list (list Z)) (bad : list Z)
    (y : Z) (vocab : gmap Z string) (outf : string) (fs : gmap string string) :
  (forall sent z, sent ∈ done -> z ∈ sent -> is_Some (vocab !! z)) ->
  y ∈ bad -> vocab !! y = None ->
  save_output (done ++ bad :: rest) vocab outf fs =
  (<[outf := foldr String.append EmptyString (map (rendered_line vocab) done)]> fs,
   Raise KeyError).
Proof.
  intros Hdone Hy Hnone. unfold save_output.
  rewrite write_lines_prefix by exact Hdone. simpl.
  rewrite (lookup_words_unknown vocab bad y Hy Hnone). reflexivity.
Qed.

Lemma count_char_app (c : ascii) (a b : string) :
  count_char c (a +:+ b) = (count_char c a + count_char c b)%nat.
Proof.
  induction a as [|x a IH]; [reflexivity|].
  change (count_char c (String x (a +:+ b)) =
          (count_char c (String x a) + count_char c b)%nat).
  simpl. rewrite IH. lia.
Qed.

Lemma line_count_concat_space (words : list string) :
  (forall w, w ∈ words -> line_count w = O) ->
  line_count (String.concat space words) = O.
Proof.
  unfold line_count.
  induction words as [|w words IH]; intros Hw; [reflexivity|].
  destruct words as [|w' words].
  - simpl. apply Hw, list_elem_of_here.
  - change (String.concat space (w :: w' :: words))
      with (w +:+ (space +:+ String.concat space (w' :: words))).
    rewrite !count_char_app, IH.
    + rewrite (Hw w) by apply list_elem_of_here. reflexivity.
    + intros v Hv. apply Hw, list_elem_of_further, Hv.
Qed.

Lemma line_count_rendered (vocab : gmap Z string) (sent : list Z) :
  (forall y w, vocab !! y = Some w -> line_count w = O) ->
  line_count (rendered_line vocab sent) = 1%nat.
Proof.
  intros Hv. unfold rendered_line, line_count.
  rewrite count_char_app. fold (line_count (String.concat space
    (map (fun y => default EmptyString (vocab !! y)) sent))).
  rewrite line_count_concat_space; [reflexivity|].
  intros w Hw. apply list_elem_of_In, in_map_iff in Hw as (y & <- & _).
  destruct (vocab !! y) as [w|] eqn:Hy; simpl; [apply (Hv y w Hy) | reflexivity].
Qed.

Lemma line_count_lines (vocab : gmap Z string) (hypotheses : list (list Z)) :
  (forall y w, vocab !! y = Some w -> line_count w = O) ->
  line_count (foldr String.append EmptyString (map (rendered_line vocab) hypotheses))
  = length hypotheses.
Proof.
  intros Hv. induction hypotheses as [|sent rest IH]; [reflexivity|].
  cbn [map foldr length]. unfold line_count in *. rewrite count_char_app, IH.
  change (count_char newline_char (rendered_line vocab sent))
    with (line_count (rendered_line vocab sent)).
  rewrite line_count_rendered by exact Hv. reflexivity.
Qed.

(** X3: when no token of the vocabulary contains a line break, the file
    left by a [save_output] that returns normally has exactly as many
    lines as there are hypotheses. *)
Theorem save_output_line_count (hypotheses : list (list Z)) (vocab : gmap Z string)
    (outf : string) (fs : gmap string string) :
  (forall y w, vocab !! y = Some w -> line_count w = O) ->
  (save_output hypotheses vocab outf fs).2 = Ok tt ->
  exists content,
    (save_output hypotheses vocab outf fs).1 !! outf = Some content /\
    line_count content = length hypotheses.
Proof.
  intros Hv Hok. unfold save_output in *.
  destruct (write_lines vocab hypotheses EmptyString) as [written r] eqn:H.
  simpl in *. subst r.
  exists written. split; [apply lookup_insert_eq|].
  rewrite (write_lines_known vocab hypotheses (write_lines_Ok _ _ _ _ H)) in H.
  injection H as <-.
  unfold line_count. rewrite count_char_app. apply (line_count_lines vocab hypotheses Hv).
Qed.

Lemma save_output_Ok (hypotheses : list (list Z)) (vocab : gmap Z string)
    (outf : string) (fs fs' : gmap string string) :
  save_output hypotheses vocab outf fs = (fs', Ok tt) ->
  fs' = <[outf := foldr String.append EmptyString
                    (map (rendered_line vocab) hypotheses)]> fs.
Proof.
  unfold save_output.
  destruct (write_lines vocab hypotheses EmptyString) as [written r] eqn:H.
  intros Heq. injection Heq as <- ->.
  rewrite (write_lines_known vocab hypotheses (write_lines_Ok _ _ _ _ H)) in H.
  injection H as <-. reflexivity.
Qed.

End OutputMore.

(** ** More on the parameter tally *)

Section TallyMore.

Import Tally.

Lemma prefix_iff (sub s : string) :
  String.prefix sub s = true <-> exists post, s = sub +:+ post.
Proof.
  revert sub. induction s as [|b s IH]; intros sub.
  - destruct sub as [|a sub]; simpl.
    + split; [intros _; exists EmptyString; reflexivity | reflexivity].
    + split; [discriminate | intros [post H]; discriminate H].
  - destruct sub as [|a sub]; simpl.
    + split; [intros _; exists (String b s); reflexivity | reflexivity].
    + destruct (ascii_dec a b) as [->|Hne].
      * rewrite IH. split; intros [post H]; exists post.
        -- rewrite H. reflexivity.
        -- change (String b s = String b (sub +:+ post)) in H. congruence.
      * split; [discriminate|]. intros [post H].
        change (String b s = String a (sub +:+ post)) in H. congruence.
Qed.

(** X4: the membership test on names, as in ['encoder' in name], holds
    exactly when the name is some text, then the word, then some text. *)
Theorem py_in_str_iff_substring (sub s : string) :
  py_in_str sub s = true <-> exists pre post, s = pre +:+ (sub +:+ post).
Proof.
  induction s as [|a s IH].
  - change (py_in_str sub EmptyString) with (String.prefix sub EmptyString || false).
    rewrite orb_false_r, prefix_iff. split.
    + intros [post H]. exists EmptyString, post. exact H.
    + intros (pre & post & H). exists post.
      destruct pre as [|x pre]; [exact H | discriminate H].
  - change (py_in_str sub (String a s))
      with (String.prefix sub (String a s) || py_in_str sub s).
    rewrite orb_true_iff, prefix_iff, IH. split.
    + intros [[post H] | (pre & post & H)].
      * exists EmptyString, post. exact H.
      * exists (String a pre), post. rewrite H. reflexivity.
    + intros (pre & post & H). destruct pre as [|x pre].
      * left. exists post. exact H.
      * right. exists pre, post.
        change (String a s = String x (pre +:+ (sub +:+ post))) in H. congruence.
Qed.

Lemma tally_loop_permutation (l l' : list (string * Z)) :
  l ≡ₚ l' -> forall enc dec, tally_loop l enc dec = tally_loop l' enc dec.
Proof.
  induction 1 as [|[name n] l l' _ IH|[nx x] [ny y] l|l l' l'' _ IH _ IH'];
    intros enc dec.
  - reflexivity.
  - simpl. destruct (is_encoder name); [apply IH|].
    destruct (is_decoder name); apply IH.
  - simpl.
    destruct (is_encoder ny), (is_encoder nx); simpl; try reflexivity;
      f_equal; lia.
  - rewrite IH. apply IH'.
Qed.

(** X5: the three numbers of the tally do not depend on the order in which
    the model lists its parameters. *)
Theorem tally_parameters_permutation (l l' : list (string * Z)) :
  l ≡ₚ l' -> tally_parameters l = tally_parameters l'.
Proof.
  intros Hp. unfold tally_parameters.
  rewrite (tally_loop_permutation l l' Hp).
  assert (Htot : total_elements l = total_elements l').
  { clear -Hp. unfold total_elements.
    induction Hp as [|x l l' _ IH|x y l|l l' l'' _ IH _ IH']; simpl; lia. }
  rewrite Htot. reflexivity.
Qed.

End TallyMore.

(** ** More on reporting *)

Section ReportMore.

Import Stats.

Lemma due_iff_multiple (batch r : Z) :
  r <> 0 -> (batch mod r =? (-1) mod r) = ((batch + 1) mod r =? 0).
Proof.
  intros Hr. apply eq_true_iff_eq. rewrite !Z.eqb_eq. split; intros H.
  - rewrite Z.add_mod, H, <- Z.add_mod by exact Hr. reflexivity.
  - replace batch with ((batch + 1) + (-1)) at 1 by lia.
    rewrite Z.add_mod, H by exact Hr. simpl. apply Z.mod_mod. exact Hr.
Qed.

Lemma report_func_nonzero (epoch batch num_batches : Z) (start_time gn : R)
    (rs : Statistics) (report_every : Z) :
  report_every <> 0 ->
  report_func epoch batch num_batches start_time rs report_every gn
  = Ok (if (batch + 1) mod report_every =? 0
        then (fresh, [mkProgressLine epoch (batch + 1) num_batches start_time gn rs])
        else (rs, [])).
Proof.
  intros Hr. unfold report_func, py_mod.
  replace (report_every =? 0) with false by (symmetry; apply Z.eqb_neq; exact Hr).
  rewrite due_iff_multiple by exact Hr.
  destruct ((batch + 1) mod report_every =? 0); reflexivity.
Qed.

(** X6: [report_func] raises [ZeroDivisionError] on a report interval of 0;
    on any other interval, positive or negative, it prints and starts a
    fresh aggregate exactly when the interval divides the number of steps
    done, [batch + 1], and otherwise hands back the aggregate it got. *)
Theorem report_func_due_iff_multiple (epoch batch num_batches : Z) (start_time gn : R)
    (rs : Statistics) (report_every : Z) :
  (report_every = 0 ->
   report_func epoch batch num_batches start_time rs report_every gn
   = Raise ZeroDivisionError) /\
  (report_every <> 0 ->
   report_func epoch batch num_batches start_time rs report_every gn
   = Ok (if (batch + 1) mod report_every =? 0
         then (fresh, [mkProgressLine epoch (batch + 1) num_batches start_time gn rs])
         else (rs, []))).
Proof.
  split.
  - intros ->. reflexivity.
  - apply report_func_nonzero.
Qed.

End ReportMore.

(** ** More on corpus scoring *)

Section EvaluatorMore.

Import Batching Evaluator.

Variable Model : Type.
Variable translate : Model -> list (list Z) -> Z -> BeamArg -> list (list Z).
Variable bleu_evaluate : list (list Z) -> list (list Z) -> Q.

(** X7: with a batch size of 0 the scoring pass raises [ValueError] before
    it asks the model for any translation; with a negative batch size it
    asks for none either and scores an empty list of hypotheses against an
    empty list of references, whatever the corpus holds. *)
Theorem call_degenerate_batch (self : CalculateBleu Model) :
  (batch self = 0 -> call Model translate bleu_evaluate self = ([], Raise ValueError)) /\
  (batch self < 0 ->
   call Model translate bleu_evaluate self = ([], Ok (bleu_evaluate [] [], []))).
Proof.
  unfold call, py_range0. split.
  - intros ->. reflexivity.
  - intros Hb.
    replace (batch self =? 0) with false by (symmetry; apply Z.eqb_neq; lia).
    replace (batch self <? 0) with true by (symmetry; apply Z.ltb_lt; lia).
    reflexivity.
Qed.

Lemma slice_block {A : Type} (l : list A) (b : Z) (j : nat) :
  0 < b ->
  py_slice l (Z.of_nat j * b) (Z.of_nat j * b + b)
  = take (Z.to_nat b) (drop (j * Z.to_nat b) l).
Proof.
  intros Hb. unfold py_slice. f_equal.
  - lia.
  - f_equal. rewrite Z2Nat.inj_mul, Nat2Z.id by lia. reflexivity.
Qed.

(** X8: with a positive batch size the score returned is the score of the
    returned hypotheses against the targets of the whole corpus, in corpus
    order. *)
Theorem call_scores_against_all_targets (self : CalculateBleu Model) :
  0 < batch self ->
  exists calls hypotheses,
    call Model translate bleu_evaluate self =
    (calls, Ok (bleu_evaluate ((test_data self).*2) hypotheses, hypotheses)).
Proof.
  intros Hb. unfold call, py_range0.
  replace (batch self =? 0) with false by (symmetry; apply Z.eqb_neq; lia).
  replace (batch self <? 0) with false by (symmetry; apply Z.ltb_ge; lia).
  rewrite call_loop_unfold. simpl.
  set (n := Z.to_nat ((py_len (test_data self) + batch self - 1) / batch self)).
  assert (Href : concat ((fun i => (py_slice (test_data self) i (i + batch self)).*2)
                           <$> ((fun j => Z.of_nat j * batch self) <$> seq 0 n))
                 = (test_data self).*2).
  { rewrite <- list_fmap_compose.
    rewrite (list_fmap_ext _ (fun j => take (Z.to_nat (batch self))
                                         (drop (j * Z.to_nat (batch self))
                                               ((test_data self).*2)))).
    - apply blocks_concat.
      destruct (block_count (py_len (test_data self)) (batch self)) as [Hup _];
        [apply py_len_nonneg | exact Hb |].
      unfold py_len in Hup. rewrite Nat2Z.id in Hup.
      rewrite length_fmap. exact Hup.
    - intros _ j _. unfold compose.
      rewrite slice_block, fmap_take, fmap_drop by exact Hb. reflexivity. }
  rewrite Href. eexists _, _. reflexivity.
Qed.

(** X9: with a positive batch size the scoring pass calls the model once
    per batch, that is the corpus size divided by the batch size, rounded
    up, times; no call is empty and none holds more sources than the batch
    size. *)
Theorem call_count_and_sizes (self : CalculateBleu Model) :
  0 < batch self ->
  let calls := (call Model translate bleu_evaluate self).1 in
  py_len calls = (py_len (test_data self) + batch self - 1) / batch self /\
  forall c, c ∈ calls ->
            0 < py_len (gc_sources c) <= batch self.
Proof.
  intros Hb. destruct (call_positive Model translate bleu_evaluate self Hb) as [score ->].
  simpl.
  destruct (block_count (py_len (test_data self)) (batch self)) as [Hup Hlow];
    [apply py_len_nonneg | exact Hb |].
  pose proof (py_len_nonneg (test_data self)) as Hlen.
  assert (Hq : 0 <= (py_len (test_data self) + batch self - 1) / batch self)
    by (apply Z.div_pos; lia).
  remember (Z.to_nat ((py_len (test_data self) + batch self - 1) / batch self)) as n eqn:Hn.
  remember (Z.to_nat (batch self)) as bn eqn:Hbn.
  unfold py_len in Hup, Hlow. rewrite Nat2Z.id in Hup, Hlow.
  split.
  - unfold py_len at 1. rewrite length_fmap, length_seq. lia.
  - intros c Hc. apply list_elem_of_fmap in Hc as (j & -> & Hj).
    apply elem_of_seq in Hj. cbn [gc_sources].
    unfold py_len. rewrite length_take, length_drop, length_fmap.
    assert (Hjb : (j * bn < length (test_data self))%nat) by nia.
    unfold Example in *. lia.
Qed.

End EvaluatorMore.

(** ** More on the checkpoint decision *)

Section CheckpointMore.

Import Batching Stats Train.

Variable Model : Type.

#[local] Existing Instance M_ret.
#[local] Existing Instance M_bind.

Lemma maybe_checkpoint_run (score : Q) (s : RunState Model) :
  maybe_checkpoint Model score s =
  (if Qle_bool (best_score s) score
   then set_log Model (log s ++ [EvTorchSave])
          (set_model_file Model (Some (model s)) (set_best_score Model score s))
   else s, Ok tt).
Proof.
  unfold maybe_checkpoint, mbind, M_bind, get. simpl.
  destruct (Qle_bool (best_score s) score); reflexivity.
Qed.

(** X10: a series of checkpoint decisions never raises and never lowers
    the best score; afterwards the best score is at least every candidate
    seen, and it is either the best score from before or one of the
    candidates. *)
Theorem checkpoints_keep_running_maximum (scores : list Q) (s : RunState Model) :
  let r := for_each Model (maybe_checkpoint Model) scores s in
  r.2 = Ok tt /\
  (best_score s <= best_score r.1)%Q /\
  (forall c, c ∈ scores -> (c <= best_score r.1)%Q) /\
  (best_score r.1 = best_score s \/ best_score r.1 ∈ scores).
Proof.
  revert s. induction scores as [|c scores IH]; intros s; simpl.
  - repeat split; [apply Qle_refl | intros c Hc; inversion Hc | left; reflexivity].
  - unfold mbind, M_bind. rewrite maybe_checkpoint_run.
    set (s1 := if Qle_bool (best_score s) c then _ else s).
    destruct (IH s1) as (Hok & Hmono & Hub & Hatt).
    assert (Hs1 : (best_score s <= best_score s1)%Q /\ (c <= best_score s1)%Q /\
                  (best_score s1 = best_score s \/ best_score s1 = c)).
    { unfold s1. destruct (Qle_bool (best_score s) c) eqn:Hle; simpl.
      - apply Qle_bool_iff in Hle.
        repeat split; [exact Hle | apply Qle_refl | right; reflexivity].
      - assert (Hlt : (c < best_score s)%Q).
        { apply Qnot_le_lt. intros H. apply Qle_bool_iff in H. congruence. }
        repeat split; [apply Qle_refl | apply Qlt_le_weak, Hlt | left; reflexivity]. }
    destruct Hs1 as (H1 & H2 & H3).
    split; [exact Hok|]. split; [eapply Qle_trans; eassumption|]. split.
    + intros c' Hc'. apply elem_of_cons in Hc' as [-> | Hc'].
      * eapply Qle_trans; eassumption.
      * apply Hub, Hc'.
    + destruct Hatt as [Heq | Hin].
      * rewrite Heq. destruct H3 as [-> | ->];
          [left; reflexivity | right; apply list_elem_of_here].
      * right. apply list_elem_of_further, Hin.
Qed.

End CheckpointMore.

(** ** More on the training run *)

Section RunMore.

Import Batching Stats Train.

Variable Model : Type.
Variable translate : Model -> list (list Z) -> Z -> Evaluator.BeamArg -> list (list Z).
Variable bleu_evaluate : list (list Z) -> list (list Z) -> Q.
Variable named_parameters : Model -> list (string * Z).
Variable train_step : Model -> Batch -> Model * Statistics * R.
Variable eval_batch : Model -> Batch -> Statistics.
Variable shuffle : Z -> list Example -> list Example.
Variable interleave_keys : Z -> Z -> Z.
Variable random_shuffler : list Batch -> list Batch.
Variable time_s : R.
Variable args : Args.
Variable dev_data test_data : list Example.
Variable id2w : gmap Z string.

#[local] Existing Instance M_ret.
#[local] Existing Instance M_bind.

Abbreviation step' :=
  (step Model translate bleu_evaluate train_step time_s args dev_data).

Lemma evaluation_block_skip (s : RunState Model) :
  0 <= total_steps s ->
  evaluation_block Model translate bleu_evaluate args dev_data s = (s, Ok tt).
Proof.
  intros Hn. unfold evaluation_block, mbind, M_bind, get.
  rewrite cadence_never_due by exact Hn. reflexivity.
Qed.

Lemma for_each_emit (lines : list ProgressLine) (s : RunState Model) :
  for_each Model (fun line => emit Model (EvProgress line)) lines s =
  (set_log Model (log s ++ map EvProgress lines) s, Ok tt).
Proof.
  revert s. induction lines as [|l lines IH]; intros s; simpl.
  - unfold mret, M_ret. destruct s; simpl. rewrite app_nil_r. reflexivity.
  - unfold mbind, M_bind, emit, modify. rewrite IH.
    destruct s; simpl. rewrite <- app_assoc. reflexivity.
Qed.

(** What one iteration of the step loop does, from a state whose step
    counter is not negative. *)
Lemma step_run (s : RunState Model) (epoch ipe i : Z) (b : Batch) :
  0 <= total_steps s ->
  step' epoch ipe (i, b) s =
  match words_of fst b with
  | Raise e => (set_total_steps Model (total_steps s + 1) s, Raise e)
  | Ok src_words =>
      let out := train_step (model s) b in
      let rs := update (add_src_words (report_stats s) src_words) out.1.2 in
      let s2 := mkRunState Model out.1.1 (train_data s) (total_steps s + 1)
                  (best_score s) rs
                  (update (add_src_words (train_stats s) src_words) out.1.2)
                  (valid_stats s) (grad_norm s + out.2)%R (model_file s) (files s)
                  (log s) in
      match report_func epoch i ipe time_s rs (report_every args)
              ((grad_norm s + out.2) / IZR (i + 1)) with
      | Raise e => (s2, Raise e)
      | Ok (stats, lines) =>
          (set_log Model (log s ++ map EvProgress lines)
             (set_report_stats Model stats s2), Ok tt)
      end
  end.
Proof.
  intros Hn. unfold step, report_block, mbind, M_bind, modify, get, lift. simpl.
  destruct (words_of fst b) as [sw|e]; simpl; [|reflexivity].
  destruct (train_step (model s) b) as [[m' stat] norm]; simpl.
  destruct (report_func _ _ _ _ _ _ _) as [[stats lines]|e]; simpl.
  - rewrite for_each_emit. simpl. rewrite evaluation_block_skip by (simpl; lia).
    destruct s; reflexivity.
  - destruct s; reflexivity.
Qed.

(** X11: from a state whose step counter is not negative, an iteration of
    the step loop always counts the step; it raises [IndexError] on an
    empty batch, before the model is touched, and [ZeroDivisionError] on a
    report interval of 0, after the model has been updated; in every other
    case it returns normally. *)
Theorem step_errors (s : RunState Model) (epoch ipe i : Z) (b : Batch) :
  0 <= total_steps s ->
  let r := step' epoch ipe (i, b) s in
  total_steps r.1 = total_steps s + 1 /\
  (b = [] -> r.2 = Raise IndexError /\ model r.1 = model s) /\
  (b <> [] -> report_every args = 0 ->
   r.2 = Raise ZeroDivisionError /\ model r.1 = (train_step (model s) b).1.1) /\
  (b <> [] -> report_every args <> 0 ->
   r.2 = Ok tt /\ model r.1 = (train_step (model s) b).1.1).
Proof.
  intros Hn. cbv zeta. rewrite step_run by exact Hn.
  destruct b as [|ex b]; simpl.
  - repeat split; try reflexivity; intros; congruence.
  - destruct (Z.eq_dec (report_every args) 0) as [Hr|Hr].
    + rewrite Hr. unfold report_func, py_mod. simpl.
      repeat split; try reflexivity; intros; congruence.
    + rewrite report_func_nonzero by exact Hr.
      destruct ((i + 1) mod report_every args =? 0); simpl;
        repeat split; try reflexivity; intros; congruence.
Qed.

Lemma div_succ (n r : Z) :
  0 < r -> 0 <= n ->
  (n + 1) / r = n / r + (if (n + 1) mod r =? 0 then 1 else 0).
Proof.
  intros Hr Hn.
  pose proof (Z.div_mod n r ltac:(lia)) as H1.
  pose proof (Z.mod_pos_bound n r Hr) as H2.
  pose proof (Z.div_mod (n + 1) r ltac:(lia)) as H3.
  pose proof (Z.mod_pos_bound (n + 1) r Hr) as H4.
  destruct (Z.eqb_spec ((n + 1) mod r) 0) as [H0|H0]; nia.
Qed.

Lemma step_ok_summary (s : RunState Model) (epoch ipe i : Z) (b : Batch) :
  0 <= total_steps s -> b <> [] -> report_every args <> 0 ->
  exists s' lines,
    step' epoch ipe (i, b) s = (s', Ok tt) /\
    total_steps s' = total_steps s + 1 /\
    log s' = log s ++ map EvProgress lines /\
    py_len lines = (if (i + 1) mod report_every args =? 0 then 1 else 0).
Proof.
  intros Hn Hb Hr. rewrite step_run by exact Hn.
  destruct b as [|ex b']; [congruence|]. cbn [words_of]. cbv zeta.
  rewrite report_func_nonzero by exact Hr.
  destruct ((i + 1) mod report_every args =? 0).
  - eexists _, [_]. repeat split.
  - eexists _, []. repeat split.
Qed.

Lemma step_loop_from (batches : list Batch) (epoch ipe : Z) :
  0 < report_every args ->
  (forall b, b ∈ batches -> b <> []) ->
  forall (k : nat) (s : RunState Model),
    0 <= total_steps s ->
    let r := for_each Model (step' epoch ipe)
               (imap (fun i b => (Z.of_nat (k + i), b)) batches) s in
    r.2 = Ok tt /\
    total_steps r.1 = total_steps s + py_len batches /\
    exists lines,
      log r.1 = log s ++ map EvProgress lines /\
      py_len lines = (Z.of_nat k + py_len batches) / report_every args
                     - Z.of_nat k / report_every args.
Proof.
  intros Hr. induction batches as [|b batches IH]; intros Hne k s Hn.
  - simpl. repeat split; [unfold py_len; simpl; lia|].
    exists []. rewrite app_nil_r. split; [reflexivity|].
    unfold py_len. simpl. rewrite Z.add_0_r. lia.
  - rewrite imap_cons. cbn [for_each]. unfold mbind, M_bind. cbv zeta.
    destruct (step_ok_summary s epoch ipe (Z.of_nat (k + 0)) b Hn)
      as (s1 & lines1 & Hstep & Hts1 & Hlog1 & Hcount1);
      [apply Hne, list_elem_of_here | lia |].
    rewrite Hstep.
    rewrite (imap_ext _ (fun i b => (Z.of_nat (S k + i), b)))
      by (intros i x _; unfold compose; do 2 f_equal; lia).
    destruct (IH ltac:(intros x Hx; apply Hne, list_elem_of_further, Hx) (S k) s1)
      as (Hok & Hts & lines & Hlog & Hcount); [lia|].
    cbv zeta in Hok, Hts, Hlog.
    split; [exact Hok|]. split; [rewrite Hts, Hts1; unfold py_len; simpl length; lia|].
    exists (lines1 ++ lines). split.
    + rewrite Hlog, Hlog1, map_app, <- app_assoc. reflexivity.
    + replace (Z.of_nat (k + 0)) with (Z.of_nat k) in Hcount1 by lia.
      pose proof (div_succ (Z.of_nat k) (report_every args) Hr ltac:(lia)) as Hdiv.
      rewrite py_len_app, Hcount, Hcount1.
      unfold py_len. simpl length.
      replace (Z.of_nat k + Z.of_nat (S (length batches)))
        with (Z.of_nat (S k) + Z.of_nat (length batches)) by lia.
      replace (Z.of_nat (S k)) with (Z.of_nat k + 1) by lia.
      lia.
Qed.

(** X12: with a positive report interval and no empty batch, the step loop
    of an epoch returns normally, counts one step per batch, and logs
    nothing but progress lines, as many as the number of batches divided
    by the report interval, rounded down. *)
Theorem step_loop_counts (batches : list Batch) (epoch ipe : Z) (s : RunState Model) :
  0 < report_every args ->
  (forall b, b ∈ batches -> b <> []) ->
  0 <= total_steps s ->
  let r := for_each Model (step' epoch ipe)
             (imap (fun i b => (Z.of_nat i, b)) batches) s in
  r.2 = Ok tt /\
  total_steps r.1 = total_steps s + py_len batches /\
  exists lines,
    log r.1 = log s ++ map EvProgress lines /\
    py_len lines = py_len batches / report_every args.
Proof.
  intros Hr Hne Hn.
  destruct (step_loop_from batches epoch ipe Hr Hne 0 s Hn)
    as (Hok & Hts & lines & Hlog & Hcount).
  cbv zeta in *. change (fun (i : nat) (b : Batch) => (Z.of_nat (0 + i), b))
    with (fun (i : nat) (b : Batch) => (Z.of_nat i, b)) in *.
  split; [exact Hok|]. split; [exact Hts|].
  exists lines. split; [exact Hlog|].
  rewrite Hcount. change (Z.of_nat 0) with 0.
  rewrite Z.div_0_l, Z.add_0_l, Z.sub_0_r by lia. reflexivity.
Qed.

Lemma for_each_ext_on {A : Type} (I : RunState Model -> Prop)
    (f g : A -> M Model unit) (l : list A) :
  (forall x, preserves I (f x)) ->
  (forall x s, I s -> f x s = g x s) ->
  forall s, I s -> for_each Model f l s = for_each Model g l s.
Proof.
  intros Hpres Hext. induction l as [|x l IH]; intros s Hs; [reflexivity|].
  cbn [for_each]. unfold mbind, M_bind.
  rewrite <- (Hext x s Hs). pose proof (Hpres x s Hs) as Hs'.
  destruct (f x s) as [s' [[]|e]]; [apply IH, Hs' | reflexivity].
Qed.

(** X13: the training phase of a run, everything up to the end of the last
    epoch, does not depend on the generation procedure of the model, on the
    scorer, on the beam width, on the flag that disables BLEU or on the
    output paths: two runs that agree on the rest reach the same state. *)
Theorem training_ignores_scoring
    (translate2 : Model -> list (list Z) -> Z -> Evaluator.BeamArg -> list (list Z))
    (bleu_evaluate2 : list (list Z) -> list (list Z) -> Q) (args2 : Args)
    (s0 : RunState Model) :
  epoch args2 = epoch args ->
  wbatchsize args2 = wbatchsize args ->
  batchsize args2 = batchsize args ->
  report_every args2 = report_every args ->
  training Model translate2 bleu_evaluate2 named_parameters train_step eval_batch
    shuffle interleave_keys random_shuffler time_s args2 dev_data s0
  = training Model translate bleu_evaluate named_parameters train_step eval_batch
      shuffle interleave_keys random_shuffler time_s args dev_data s0.
Proof.
  intros He Hw Hb Hr.
  assert (Hstep : forall epoch ipe it s,
             0 <= total_steps s ->
             step Model translate2 bleu_evaluate2 train_step time_s args2 dev_data
               epoch ipe it s
             = step' epoch ipe it s).
  { intros epoch ipe [i b] s Hn.
    rewrite step_run by exact Hn.
    unfold step, report_block, mbind, M_bind, modify, get, lift. simpl.
    rewrite Hr.
    destruct (words_of fst b) as [sw|e]; simpl; [|reflexivity].
    destruct (train_step (model s) b) as [[m' stat] norm]; simpl.
    destruct (report_func _ _ _ _ _ _ _) as [[stats lines]|e]; simpl.
    - rewrite for_each_emit. simpl.
      unfold evaluation_block, mbind, M_bind, get.
      rewrite cadence_never_due by (simpl; lia).
      destruct s; reflexivity.
    - destruct s; reflexivity. }
  assert (Hepoch : forall ipe e s,
             0 <= total_steps s ->
             run_epoch Model translate2 bleu_evaluate2 train_step eval_batch shuffle
               interleave_keys random_shuffler time_s args2 dev_data ipe e s
             = run_epoch Model translate bleu_evaluate train_step eval_batch shuffle
                 interleave_keys random_shuffler time_s args dev_data ipe e s).
  { intros ipe e s Hn.
    unfold run_epoch, validation_pass, mbind, M_bind, modify, get. simpl.
    rewrite Hw, Hb.
    rewrite (for_each_ext_on (fun t => 0 <= total_steps t)
               (step Model translate2 bleu_evaluate2 train_step time_s args2 dev_data
                  e ipe) (step' e ipe)).
    - reflexivity.
    - intros it t Ht.
      rewrite Hstep by exact Ht.
      rewrite (step_total_steps Model translate bleu_evaluate train_step time_s args
                 dev_data t e ipe it Ht). lia.
    - intros it t Ht. apply Hstep, Ht.
    - simpl. exact Hn. }
  unfold training, mbind, M_bind.
  assert (Hpro : prologue Model named_parameters args2 s0
                 = prologue Model named_parameters args s0).
  { unfold prologue. rewrite Hw. reflexivity. }
  rewrite Hpro.
  pose proof (prologue_spec Model named_parameters args s0) as Hp.
  destruct (prologue Model named_parameters args s0) as [s1 [ipe|e]]; [|reflexivity].
  unfold run_epochs. rewrite He.
  apply (for_each_ext_on (fun t => 0 <= total_steps t /\ untouched s0 t)).
  - intros e. apply Inv_run_epoch.
  - intros e t [Ht _]. apply Hepoch, Ht.
  - exact Hp.
Qed.

(** X14: a run that starts without a model file on disk never returns
    normally: when training gets through, loading the model raises
    [FileNotFoundError]; the output files are left as they were and no
    hypothesis file is written. *)
Theorem main_needs_model_file (s0 : RunState Model) :
  model_file s0 = None ->
  let training' :=
    training Model translate bleu_evaluate named_parameters train_step eval_batch
      shuffle interleave_keys random_shuffler time_s args dev_data in
  let r :=
    main Model translate bleu_evaluate named_parameters train_step eval_batch
      shuffle interleave_keys random_shuffler time_s args dev_data test_data id2w s0 in
  r.2 <> Ok tt /\
  ((training' s0).2 = Ok tt -> r.2 = Raise FileNotFoundError) /\
  files r.1 = files s0 /\
  exists evs, log r.1 = log s0 ++ evs /\ outputs_written evs = [].
Proof.
  intros Hnone. cbv zeta.
  pose proof (training_untouched Model translate bleu_evaluate named_parameters
                train_step eval_batch shuffle interleave_keys random_shuffler
                time_s args dev_data s0) as (_ & Hmf & Hfiles & evs & Hlog & Hq).
  unfold main, mbind, M_bind.
  destruct (training Model translate bleu_evaluate named_parameters train_step
              eval_batch shuffle interleave_keys random_shuffler time_s args
              dev_data s0) as [s1 [[]|e]]; simpl in *.
  - unfold final_scoring, torch_load, mbind, M_bind, get, lift.
    rewrite Hmf, Hnone. simpl.
    split; [discriminate|]. split; [reflexivity|]. split; [exact Hfiles|].
    exists evs. split; [exact Hlog | apply quiet_no_output, Hq].
  - split; [discriminate|]. split; [discriminate|]. split; [exact Hfiles|].
    exists evs. split; [exact Hlog | apply quiet_no_output, Hq].
Qed.

(** X15: when a run returns normally, the model it scored at the end is the
    one the model file held before the run started; the run has scored it
    on the validation and on the test corpus with a quarter of the batch
    size, and has left the output files as they were except for the
    validation file, then the test file, which hold the rendered
    hypotheses. *)
Theorem main_success_outputs (s0 : RunState Model) :
  let r :=
    main Model translate bleu_evaluate named_parameters train_step eval_batch
      shuffle interleave_keys random_shuffler time_s args dev_data test_data id2w s0 in
  let text hyps := foldr String.append EmptyString
                     (map (Output.rendered_line id2w) hyps) in
  r.2 = Ok tt ->
  exists m0 calls_d score_d hyps_d calls_t score_t hyps_t evs_train,
    model_file s0 = Some m0 /\
    model r.1 = m0 /\
    Evaluator.call Model translate bleu_evaluate
      (Evaluator.new Model m0 dev_data "Dev Bleu" (batchsize args / 4) (beam_size args))
      = (calls_d, Ok (score_d, hyps_d)) /\
    Evaluator.call Model translate bleu_evaluate
      (Evaluator.new Model m0 test_data "Test Bleu" (batchsize args / 4) (beam_size args))
      = (calls_t, Ok (score_t, hyps_t)) /\
    files r.1 = <[test_hyp args := text hyps_t]>
                  (<[dev_hyp args := text hyps_d]> (files s0)) /\
    forallb is_quiet evs_train = true /\
    log r.1 = log s0 ++ evs_train ++
              [EvTorchLoad;
               EvBleu "Dev Bleu" (batchsize args / 4) calls_d;
               EvSaveOutput (dev_hyp args);
               EvBleu "Test Bleu" (batchsize args / 4) calls_t;
               EvSaveOutput (test_hyp args)].
Proof.
  cbv zeta.
  pose proof (training_untouched Model translate bleu_evaluate named_parameters
                train_step eval_batch shuffle interleave_keys random_shuffler
                time_s args dev_data s0) as (_ & Hmf & Hfiles & evs & Hlog & Hq).
  unfold main, mbind, M_bind.
  destruct (training Model translate bleu_evaluate named_parameters train_step
              eval_batch shuffle interleave_keys random_shuffler time_s args
              dev_data s0) as [s1 [[]|e]]; simpl in *; [|discriminate].
  unfold final_scoring, torch_load, calculate_bleu, save_output_m,
    mbind, M_bind, get, emit, modify, lift, mret, M_ret. simpl.
  rewrite Hmf. destruct (model_file s0) as [m0|]; simpl; [|discriminate].
  destruct (Evaluator.call Model translate bleu_evaluate
              (Evaluator.new Model m0 dev_data "Dev Bleu" (batchsize args / 4)
                 (beam_size args))) as [calls_d [[score_d hyps_d]|e1]] eqn:Hd;
    simpl; [|discriminate].
  destruct (Output.save_output hyps_d id2w (dev_hyp args) _) as [fs1 [[]|e2]] eqn:Hsd;
    simpl; [|discriminate].
  destruct (Evaluator.call Model translate bleu_evaluate
              (Evaluator.new Model m0 test_data "Test Bleu" (batchsize args / 4)
                 (beam_size args))) as [calls_t [[score_t hyps_t]|e3]] eqn:Ht;
    simpl; [|discriminate].
  destruct (Output.save_output hyps_t id2w (test_hyp args) _) as [fs2 [[]|e4]] eqn:Hst;
    simpl; [|discriminate].
  intros _.
  apply save_output_Ok in Hsd, Hst. simpl in Hsd.
  exists m0, calls_d, score_d, hyps_d, calls_t, score_t, hyps_t, evs.
  split; [reflexivity|]. split; [reflexivity|].
  split; [exact Hd|]. split; [exact Ht|].
  split; [rewrite Hst, Hsd, Hfiles; reflexivity|].
  split; [exact Hq|].
  rewrite Hlog, <- !app_assoc. reflexivity.
Qed.

(** X16: a run on an empty training corpus raises [IndexError] while it
    counts the words, and a run with a token budget of 0 raises
    [ZeroDivisionError] while it estimates the iterations per epoch; in
    both cases only the parameter tally has been logged and no epoch has
    started. *)
Theorem main_fails_before_first_epoch (s0 : RunState Model) :
  let r :=
    main Model translate bleu_evaluate named_parameters train_step eval_batch
      shuffle interleave_keys random_shuffler time_s args dev_data test_data id2w s0 in
  let tally := EvTally (Tally.tally_parameters (named_parameters (model s0))) in
  (train_data s0 = [] ->
   r.2 = Raise IndexError /\ log r.1 = log s0 ++ [tally] /\ model r.1 = model s0) /\
  (train_data s0 <> [] -> wbatchsize args = 0 ->
   r.2 = Raise ZeroDivisionError /\ log r.1 = log s0 ++ [tally] /\ model r.1 = model s0).
Proof.
  cbv zeta.
  unfold main, training, prologue, mbind, M_bind, modify, get, emit, lift. simpl.
  split.
  - intros ->. simpl. repeat split.
  - intros Hne Hw. destruct (train_data s0) as [|ex d]; [congruence|]. simpl.
    rewrite Hw. simpl. repeat split.
Qed.

Lemma call_batch_zero (m : Model) (data : list Example) (key : string) (k : Z) :
  Evaluator.call Model translate bleu_evaluate (Evaluator.new Model m data key 0 k)
  = ([], Raise ValueError).
Proof. reflexivity. Qed.

(** X17: with a batch size from 0 to 3 the final scoring works with a batch
    size of 0: a run never returns normally, it raises [ValueError] in the
    first scoring pass when it gets that far, and writes no hypothesis
    file. *)
Theorem main_small_batchsize (s0 : RunState Model) :
  0 <= batchsize args < 4 ->
  let training' :=
    training Model translate bleu_evaluate named_parameters train_step eval_batch
      shuffle interleave_keys random_shuffler time_s args dev_data in
  let r :=
    main Model translate bleu_evaluate named_parameters train_step eval_batch
      shuffle interleave_keys random_shuffler time_s args dev_data test_data id2w s0 in
  r.2 <> Ok tt /\
  ((training' s0).2 = Ok tt -> model_file s0 <> None -> r.2 = Raise ValueError) /\
  files r.1 = files s0 /\
  exists evs, log r.1 = log s0 ++ evs /\ outputs_written evs = [].
Proof.
  intros Hb. cbv zeta.
  assert (Hq4 : batchsize args / 4 = 0) by (apply Z.div_small; lia).
  pose proof (training_untouched Model translate bleu_evaluate named_parameters
                train_step eval_batch shuffle interleave_keys random_shuffler
                time_s args dev_data s0) as (_ & Hmf & Hfiles & evs & Hlog & Hq).
  unfold main, mbind, M_bind.
  destruct (training Model translate bleu_evaluate named_parameters train_step
              eval_batch shuffle interleave_keys random_shuffler time_s args
              dev_data s0) as [s1 [[]|e]]; simpl in *.
  - unfold final_scoring, torch_load, calculate_bleu, mbind, M_bind, get, emit,
      modify, lift, mret, M_ret. simpl.
    rewrite Hq4, Hmf. destruct (model_file s0) as [m0|]; simpl.
    + rewrite ?call_batch_zero. simpl.
      split; [discriminate|]. split; [reflexivity|]. split; [exact Hfiles|].
      exists (evs ++ [EvTorchLoad; EvBleu "Dev Bleu" 0 []]). split.
      * rewrite Hlog, <- !app_assoc. reflexivity.
      * unfold outputs_written. rewrite omap_app.
        fold (outputs_written evs). rewrite (quiet_no_output evs Hq). reflexivity.
    + split; [discriminate|]. split; [intros _ H; congruence|].
      split; [exact Hfiles|].
      exists evs. split; [exact Hlog | apply quiet_no_output, Hq].
  - split; [discriminate|]. split; [discriminate|]. split; [exact Hfiles|].
    exists evs. split; [exact Hlog | apply quiet_no_output, Hq].
Qed.

End RunMore.

(** ** The further properties at work on the scenarios *)

Section EdgeFacts.

Import Batching Stats Evaluator Train.

Lemma scenario_vocab_single_line (y : Z) (w : string) :
  Scenario.id2w !! y = Some w -> Text.line_count w = O.
Proof.
  revert y w.
  change (map_Forall (fun (_ : Z) (w : string) => Text.line_count w = O) Scenario.id2w).
  apply (bool_decide_unpack _). vm_compute. exact I.
Qed.

Lemma scenario_first_known (sent : list Z) (z : Z) :
  sent ∈ [[2; 9]] -> z ∈ sent -> is_Some (Scenario.id2w !! z).
Proof.
  intros Hs Hz. apply scenario_ids_known with (sent := sent); [|exact Hz].
  apply list_elem_of_singleton in Hs as ->. apply list_elem_of_here.
Qed.

Lemma save_output_scenario_unknown_id :
  Output.save_output ([[2; 9]] ++ [4] :: [[5]]) Scenario.id2w "dev.hyp" ∅ =
  (<["dev.hyp" := foldr String.append EmptyString
                    (map (Output.rendered_line Scenario.id2w) [[2; 9]])]> ∅,
   Raise KeyError).
Proof.
  apply (save_output_stops_at_unknown_id [[2; 9]] [[5]] [4] 4).
  - exact scenario_first_known.
  - apply list_elem_of_here.
  - reflexivity.
Defined.

Lemma save_output_scenario_two_lines :
  exists content,
    (Output.save_output [[2; 9]; [5]] Scenario.id2w "dev.hyp" ∅).1 !! "dev.hyp"
      = Some content /\
    Text.line_count content = 2%nat.
Proof.
  apply (save_output_line_count [[2; 9]; [5]] Scenario.id2w "dev.hyp" ∅).
  - exact scenario_vocab_single_line.
  - vm_compute. reflexivity.
Defined.

Lemma write_lines_scenario_completes :
  (Output.write_lines Scenario.id2w [[2; 9]; [5]] EmptyString).2 = Ok tt.
Proof.
  apply (proj1 (write_lines_completes_iff_ids_known [[2; 9]; [5]] Scenario.id2w
                  EmptyString)).
  exact scenario_ids_known.
Defined.

Lemma tally_scenario_swapped :
  Tally.tally_parameters [("decoder.embed", 6); ("encoder.embed", 6)] =
  Tally.tally_parameters [("encoder.embed", 6); ("decoder.embed", 6)].
Proof.
  apply tally_parameters_permutation. apply perm_swap.
Defined.

Lemma report_scenario_every_second_step :
  report_func 0 3 2 0%R fresh 2 0%R =
  Ok (fresh, [mkProgressLine 0 4 2 0%R 0%R fresh]).
Proof.
  apply (proj2 (report_func_due_iff_multiple 0 3 2 0%R 0%R fresh 2)). lia.
Defined.

Lemma call_scenario_zero_batch :
  call Scenario.Model Scenario.translate Scenario.bleu_evaluate
    EdgeScenario.scorer_zero = ([], Raise ValueError).
Proof.
  apply (proj1 (call_degenerate_batch Scenario.Model Scenario.translate
                  Scenario.bleu_evaluate EdgeScenario.scorer_zero)).
  reflexivity.
Defined.

Lemma call_scenario_targets :
  exists calls hypotheses,
    call Scenario.Model Scenario.translate Scenario.bleu_evaluate Scenario.scorer =
    (calls, Ok (Scenario.bleu_evaluate [[7; 5]; [9; 9]] hypotheses, hypotheses)).
Proof.
  apply (call_scores_against_all_targets Scenario.Model Scenario.translate
           Scenario.bleu_evaluate Scenario.scorer).
  vm_compute. reflexivity.
Defined.

Lemma call_scenario_one_call :
  py_len (call Scenario.Model Scenario.translate Scenario.bleu_evaluate
            Scenario.scorer).1 = 1.
Proof.
  apply (proj1 (call_count_and_sizes Scenario.Model Scenario.translate
                  Scenario.bleu_evaluate Scenario.scorer ltac:(vm_compute; reflexivity))).
Defined.

Lemma checkpoints_scenario :
  let r := for_each Scenario.Model (maybe_checkpoint Scenario.Model)
             [(1 # 2)%Q; (1 # 4)%Q] Scenario.start in
  ((1 # 4) <= best_score r.1)%Q.
Proof.
  destruct (checkpoints_keep_running_maximum Scenario.Model [(1 # 2)%Q; (1 # 4)%Q]
              Scenario.start) as (_ & _ & Hub & _).
  apply Hub. apply list_elem_of_further, list_elem_of_here.
Defined.

Lemma step_scenario_counts :
  total_steps (step Scenario.Model Scenario.translate Scenario.bleu_evaluate
                 Scenario.train_step Scenario.time_s Scenario.args Scenario.corpus
                 0 2 (0, []) Scenario.start).1 = 0 + 1.
Proof.
  apply (step_errors Scenario.Model Scenario.translate Scenario.bleu_evaluate
           Scenario.train_step Scenario.time_s Scenario.args Scenario.corpus
           Scenario.start 0 2 0 []).
  simpl. lia.
Defined.

Lemma scenario_batches_nonempty (b : Batch) :
  b ∈ [Scenario.corpus; Scenario.corpus; Scenario.corpus] -> b <> [].
Proof.
  intros Hb.
  repeat (apply elem_of_cons in Hb as [-> | Hb]); try discriminate.
  inversion Hb.
Qed.

Lemma step_loop_scenario :
  let r := for_each Scenario.Model
             (step Scenario.Model Scenario.translate Scenario.bleu_evaluate
                Scenario.train_step Scenario.time_s Scenario.args Scenario.corpus 0 2)
             (imap (fun i b => (Z.of_nat i, b))
                   [Scenario.corpus; Scenario.corpus; Scenario.corpus])
             Scenario.start in
  r.2 = Ok tt /\ total_steps r.1 = 3.
Proof.
  destruct (step_loop_counts Scenario.Model Scenario.translate Scenario.bleu_evaluate
              Scenario.train_step Scenario.time_s Scenario.args Scenario.corpus
              [Scenario.corpus; Scenario.corpus; Scenario.corpus] 0 2 Scenario.start)
    as (Hok & Hts & _).
  - simpl. lia.
  - exact scenario_batches_nonempty.
  - simpl. lia.
  - split; [exact Hok | exact Hts].
Defined.

Lemma training_scenario_ignores_beam :
  training Scenario.Model EdgeScenario.translate_none EdgeScenario.bleu_one
    Scenario.named_parameters Scenario.train_step Scenario.eval_batch Scenario.shuffle
    Scenario.interleave_keys Scenario.random_shuffler Scenario.time_s
    EdgeScenario.args_beam Scenario.corpus Scenario.start
  = training Scenario.Model Scenario.translate Scenario.bleu_evaluate
      Scenario.named_parameters Scenario.train_step Scenario.eval_batch Scenario.shuffle
      Scenario.interleave_keys Scenario.random_shuffler Scenario.time_s
      Scenario.args Scenario.corpus Scenario.start.
Proof.
  apply training_ignores_scoring; reflexivity.
Defined.

Lemma main_scenario_without_file :
  (main Scenario.Model Scenario.translate Scenario.bleu_evaluate
     Scenario.named_parameters Scenario.train_step Scenario.eval_batch Scenario.shuffle
     Scenario.interleave_keys Scenario.random_shuffler Scenario.time_s Scenario.args
     Scenario.corpus Scenario.corpus Scenario.id2w EdgeScenario.start_no_file).2
  <> Ok tt.
Proof.
  apply (main_needs_model_file Scenario.Model Scenario.translate Scenario.bleu_evaluate
           Scenario.named_parameters Scenario.train_step Scenario.eval_batch
           Scenario.shuffle Scenario.interleave_keys Scenario.random_shuffler
           Scenario.time_s Scenario.args Scenario.corpus Scenario.corpus Scenario.id2w
           EdgeScenario.start_no_file).
  reflexivity.
Defined.

Lemma main_scenario_outputs :
  exists m0, model_file Scenario.start = Some m0 /\
    model (main Scenario.Model Scenario.translate Scenario.bleu_evaluate
             Scenario.named_parameters Scenario.train_step Scenario.eval_batch
             Scenario.shuffle Scenario.interleave_keys Scenario.random_shuffler
             Scenario.time_s Scenario.args Scenario.corpus Scenario.corpus
             Scenario.id2w Scenario.start).1 = m0.
Proof.
  destruct (main_success_outputs Scenario.Model Scenario.translate
              Scenario.bleu_evaluate Scenario.named_parameters Scenario.train_step
              Scenario.eval_batch Scenario.shuffle Scenario.interleave_keys
              Scenario.random_shuffler Scenario.time_s Scenario.args Scenario.corpus
              Scenario.corpus Scenario.id2w Scenario.start)
    as (m0 & _ & _ & _ & _ & _ & _ & _ & Hfile & Hmodel & _).
  - vm_compute. reflexivity.
  - exists m0. split; [exact Hfile | exact Hmodel].
Defined.

Lemma main_scenario_empty_corpus :
  (main Scenario.Model Scenario.translate Scenario.bleu_evaluate
     Scenario.named_parameters Scenario.train_step Scenario.eval_batch Scenario.shuffle
     Scenario.interleave_keys Scenario.random_shuffler Scenario.time_s Scenario.args
     Scenario.corpus Scenario.corpus Scenario.id2w EdgeScenario.start_empty).2
  = Raise IndexError.
Proof.
  apply (main_fails_before_first_epoch Scenario.Model Scenario.translate
           Scenario.bleu_evaluate Scenario.named_parameters Scenario.train_step
           Scenario.eval_batch Scenario.shuffle Scenario.interleave_keys
           Scenario.random_shuffler Scenario.time_s Scenario.args Scenario.corpus
           Scenario.corpus Scenario.id2w EdgeScenario.start_empty).
  reflexivity.
Defined.

Lemma main_scenario_small_batchsize :
  (main Scenario.Model Scenario.translate Scenario.bleu_evaluate
     Scenario.named_parameters Scenario.train_step Scenario.eval_batch Scenario.shuffle
     Scenario.interleave_keys Scenario.random_shuffler Scenario.time_s
     EdgeScenario.args_small Scenario.corpus Scenario.corpus Scenario.id2w
     Scenario.start).2
  <> Ok tt.
Proof.
  apply (main_small_batchsize Scenario.Model Scenario.translate Scenario.bleu_evaluate
           Scenario.named_parameters Scenario.train_step Scenario.eval_batch
           Scenario.shuffle Scenario.interleave_keys Scenario.random_shuffler
           Scenario.time_s EdgeScenario.args_small Scenario.corpus Scenario.corpus
           Scenario.id2w Scenario.start).
  simpl. lia.
Defined.

(** The claim C5 as it is written, for every batch size, fails on the
    corpus of the scenario and a model that answers one translation per
    source: with a batch size of 0 the scoring pass raises and returns no
    hypotheses at all, and with a batch size of -1 it returns normally with
    no hypothesis for the two examples. *)
Lemma C5_fails_without_positive_batch :
  (forall srcs len beam,
      length (Scenario.translate 0%nat srcs len beam) = length srcs) /\
  call Scenario.Model Scenario.translate Scenario.bleu_evaluate
    (new Scenario.Model 0%nat Scenario.corpus "Dev Bleu" 0 1)
  = ([], Raise ValueError) /\
  ~ (exists calls score hypotheses,
        call Scenario.Model Scenario.translate Scenario.bleu_evaluate
          (new Scenario.Model 0%nat Scenario.corpus "Dev Bleu" 0 1)
        = (calls, Ok (score, hypotheses)) /\
        length hypotheses = length Scenario.corpus) /\
  ~ (exists calls score hypotheses,
        call Scenario.Model Scenario.translate Scenario.bleu_evaluate
          (new Scenario.Model 0%nat Scenario.corpus "Dev Bleu" (-1) 1)
        = (calls, Ok (score, hypotheses)) /\
        length hypotheses = length Scenario.corpus).
Proof.
  split; [intros srcs len beam; apply length_fmap|].
  split; [reflexivity|]. split.
  - intros (calls & score & hypotheses & H & _). discriminate H.
  - intros (calls & score & hypotheses & H & Hlen).
    injection H as _ _ <-. discriminate Hlen.
Qed.

End EdgeFacts.
